(** * Contact identity resolution and merge engine

    A shallow embedding of the Python scripts
    [update_airtable_with_idi_data.py] (class [AirtableIDIUpdater]) and
    [test_3_contacts.py] ([deduplicate_contacts], the network discovery and the
    two processing passes), followed by the properties of the specification
    that were checked against them.

    Conventions of the embedding:
    - a JSON value as Python loads it is a [pyval]; floating point numbers are
      not part of the model;
    - a Python [dict] with string keys is a [gmap string pyval];
    - a Python [str] is a [string]; the character classes used by [strip],
      [lower], [upper], [title], [isupper] and the regular expression [\D] are
      those of ASCII, characters above 127 count as uncased symbols;
    - a Python exception is a value [Raise e] of the type [result];
    - the Airtable REST interface is a [repository]: an oracle that answers
      each request from the history of the requests issued so far; every
      request that is sent is recorded in a log. *)

From Stdlib Require Import ZArith Ascii String List Bool Lia.
From stdpp Require Import base decidable option list strings countable gmap.

#[local] Set Warnings "-register-all,-clear-no-such-hyp".
#[local] Open Scope Z_scope.

(** ** Python strings *)

Module PyStr.

Definition code (c : ascii) : N := N_of_ascii c.

(** [str.isspace] on one ASCII character: TAB..CR, FS..US and the blank. *)
Definition isspace_c (c : ascii) : bool :=
  let n := code c in
  ((9 <=? n) && (n <=? 13) || (28 <=? n) && (n <=? 32))%N.

Definition isdigit_c (c : ascii) : bool :=
  let n := code c in ((48 <=? n) && (n <=? 57))%N.

Definition isupper_c (c : ascii) : bool :=
  let n := code c in ((65 <=? n) && (n <=? 90))%N.

Definition islower_c (c : ascii) : bool :=
  let n := code c in ((97 <=? n) && (n <=? 122))%N.

Definition iscased_c (c : ascii) : bool := isupper_c c || islower_c c.

Definition upper_c (c : ascii) : ascii :=
  if islower_c c then ascii_of_N (code c - 32) else c.

Definition lower_c (c : ascii) : ascii :=
  if isupper_c c then ascii_of_N (code c + 32) else c.

Fixpoint smap (f : ascii -> ascii) (s : string) : string :=
  match s with
  | EmptyString => EmptyString
  | String c r => String (f c) (smap f r)
  end.

(** [s.lower()], [s.upper()] *)
Definition lower : string -> string := smap lower_c.
Definition upper : string -> string := smap upper_c.

(** [s.title()]: a cased character is upper-cased when the character before
    it is not cased, and lower-cased when it is. *)
Fixpoint title_from (previous_is_cased : bool) (s : string) : string :=
  match s with
  | EmptyString => EmptyString
  | String c r =>
      String (if previous_is_cased then lower_c c else upper_c c)
             (title_from (iscased_c c) r)
  end.

Definition title : string -> string := title_from false.

Fixpoint sexists (f : ascii -> bool) (s : string) : bool :=
  match s with
  | EmptyString => false
  | String c r => f c || sexists f r
  end.

(** [s.isupper()]: at least one cased character and no lower-case one. *)
Definition isupper (s : string) : bool :=
  sexists iscased_c s && negb (sexists islower_c s).

Fixpoint lstrip (s : string) : string :=
  match s with
  | EmptyString => EmptyString
  | String c r => if isspace_c c then lstrip r else s
  end.

Fixpoint rstrip (s : string) : string :=
  match s with
  | EmptyString => EmptyString
  | String c r =>
      match rstrip r with
      | EmptyString => if isspace_c c then EmptyString else String c EmptyString
      | r' => String c r'
      end
  end.

(** [s.strip()] *)
Definition strip (s : string) : string := rstrip (lstrip s).

(** [len(s)] *)
Definition len (s : string) : Z := Z.of_nat (String.length s).

(** [s.startswith(p)] *)
Definition startswith (s p : string) : bool := String.prefix p s.

(** [s[n:]] for [0 <= n] *)
Fixpoint drop (n : nat) (s : string) : string :=
  match n, s with
  | O, _ => s
  | S n', String _ r => drop n' r
  | S _, EmptyString => EmptyString
  end.

(** [s[:n]] for [0 <= n] *)
Fixpoint take (n : nat) (s : string) : string :=
  match n, s with
  | O, _ => EmptyString
  | S n', String c r => String c (take n' r)
  | S _, EmptyString => EmptyString
  end.

(** [s[i:j]] for [0 <= i <= j] *)
Definition slice (i j : nat) (s : string) : string := take (j - i) (drop i s).

(** [re.sub(r'\D', '', s)] *)
Fixpoint only_digits (s : string) : string :=
  match s with
  | EmptyString => EmptyString
  | String c r => if isdigit_c c then String c (only_digits r) else only_digits r
  end.

(** [s.split()]: the maximal runs of characters that are not white space.
    [cur] is the run being read, in reverse. *)
Fixpoint split_from (cur : list ascii) (s : string) : list string :=
  let flush r :=
    match cur with
    | [] => r
    | _ => string_of_list_ascii (rev cur) :: r
    end in
  match s with
  | EmptyString => flush []
  | String c r =>
      if isspace_c c then flush (split_from [] r) else split_from (c :: cur) r
  end.

Definition split : string -> list string := split_from [].

(** [sep.join(words)] *)
Fixpoint join (sep : string) (words : list string) : string :=
  match words with
  | [] => EmptyString
  | [w] => w
  | w :: ws => w +:+ sep +:+ join sep ws
  end.

(** The text is ASCII: every character is below 128.  The functions of this
    module are Python's on ASCII text and on nothing else: Python's casing,
    white space and digits reach beyond ASCII (a letter with a tilde is
    cased, the sharp s upper-cases to two letters, the no-break space is
    stripped, full-width digits are digits).  Statements about text carry
    [is_ascii] as a hypothesis. *)
Definition is_ascii_c (c : ascii) : bool := (code c <? 128)%N.

Fixpoint is_ascii (s : string) : bool :=
  match s with
  | EmptyString => true
  | String c r => is_ascii_c c && is_ascii r
  end.

End PyStr.

(** ** Python values and exceptions *)

Inductive pyval :=
| VNone
| VBool (b : bool)
| VInt (z : Z)
| VStr (s : string)
| VList (l : list pyval)
| VDict (d : gmap string pyval).

Fixpoint pyval_eq_dec (a b : pyval) {struct a} : Decision (a = b).
Proof.
  refine (match a, b with
          | VNone, VNone => left eq_refl
          | VBool x, VBool y => cast_if (decide (x = y))
          | VInt x, VInt y => cast_if (decide (x = y))
          | VStr x, VStr y => cast_if (decide (x = y))
          | VList x, VList y => cast_if (@list_eq_dec _ pyval_eq_dec x y)
          | VDict x, VDict y => cast_if (@gmap_eq_dec _ _ _ _ pyval_eq_dec x y)
          | _, _ => right _
          end); congruence.
Defined.

#[global] Instance pyval_eqdec : EqDecision pyval := pyval_eq_dec.

(** A contact, an Airtable field set, a request payload: a [dict] with
    string keys. *)
Abbreviation dict := (gmap string pyval).

Inductive exn := AttributeError | TypeError | KeyError | RequestException.

Inductive result (A : Type) :=
| Ok (a : A)
| Raise (e : exn).
Arguments Ok {A} a.
Arguments Raise {A} e.

#[global] Instance exn_eq_dec : EqDecision exn.
Proof. solve_decision. Defined.

#[global] Instance result_eq_dec {A : Type} `{EqDecision A} : EqDecision (result A).
Proof. solve_decision. Defined.

(** Sequencing: [do x <- m ;; k] runs [m] and, unless it raises, goes on
    with [k]. *)
Definition bind {A B : Type} (m : result A) (f : A -> result B) : result B :=
  match m with
  | Ok a => f a
  | Raise e => Raise e
  end.

Notation "'do' x <- m ;; k" := (bind m (fun x => k))
  (at level 10, x name, m at level 99, k at level 200).

Module Py.

(** [bool(v)] *)
Definition truthy (v : pyval) : bool :=
  match v with
  | VNone => false
  | VBool b => b
  | VInt z => negb (z =? 0)
  | VStr s => negb (bool_decide (s = ""))
  | VList l => negb (bool_decide (l = []))
  | VDict d => negb (bool_decide (d = ∅))
  end.

(** [d.get(k)]: [None] when the key is missing. *)
Definition get (d : dict) (k : string) : pyval := default VNone (d !! k).

(** [d.get(k, dflt)] *)
Definition get_default (d : dict) (k : string) (dflt : pyval) : pyval :=
  default dflt (d !! k).

(** [d[k]] *)
Definition getitem (d : dict) (k : string) : result pyval :=
  match d !! k with
  | Some v => Ok v
  | None => Raise KeyError
  end.

(** [a or b] *)
Definition or_ (a b : pyval) : pyval := if truthy a then a else b.

(** Python's [==] on JSON values: [True == 1] and [False == 0]; apart from
    that, values of different types differ.  [canon] rewrites every boolean
    to the integer it equals. *)
Fixpoint canon (v : pyval) : pyval :=
  match v with
  | VBool b => VInt (Z.b2z b)
  | VList l => VList (map canon l)
  | VDict d => VDict (canon <$> d)
  | _ => v
  end.

Definition eqb (a b : pyval) : bool := bool_decide (canon a = canon b).

(** [a == b] on two dicts *)
Definition dict_eqb (a b : dict) : bool := eqb (VDict a) (VDict b).

(** [v.strip()]: only a [str] has the method. *)
Definition strip (v : pyval) : result string :=
  match v with
  | VStr s => Ok (PyStr.strip s)
  | _ => Raise AttributeError
  end.

(** [len(v)] *)
Definition len (v : pyval) : result Z :=
  match v with
  | VStr s => Ok (PyStr.len s)
  | VList l => Ok (Z.of_nat (length l))
  | VDict d => Ok (Z.of_nat (size d))
  | _ => Raise TypeError
  end.

(** The items [for x in v] runs through: the elements of a list, the
    characters of a string, the keys of a dict. *)
Definition iter (v : pyval) : result (list pyval) :=
  match v with
  | VList l => Ok l
  | VStr s => Ok (map (fun c => VStr (String c EmptyString)) (list_ascii_of_string s))
  | VDict d => Ok (map (fun kv => VStr (fst kv)) (map_to_list d))
  | _ => Raise TypeError
  end.

(** The integer a number stands for in arithmetic ([True] is 1). *)
Definition as_int (v : pyval) : result Z :=
  match v with
  | VInt z => Ok z
  | VBool b => Ok (Z.b2z b)
  | _ => Raise TypeError
  end.

(** [abs(a - b)] *)
Definition abs_diff (a b : pyval) : result Z :=
  do x <- as_int a ;; do y <- as_int b ;; Ok (Z.abs (x - y)).

(** A value used as a dict key or a set member.  Keys that are [==] are one
    key; lists and dicts are unhashable. *)
Inductive key := KNone | KInt (z : Z) | KStr (s : string).

#[global] Instance key_eq_dec : EqDecision key.
Proof. solve_decision. Defined.

#[global] Instance key_countable : Countable key.
Proof.
  refine (inj_countable'
    (fun k => match k with
              | KNone => inl ()
              | KInt z => inr (inl z)
              | KStr s => inr (inr s)
              end)
    (fun x => match x with
              | inl _ => KNone
              | inr (inl z) => KInt z
              | inr (inr s) => KStr s
              end) _).
  by intros [].
Defined.

(** [hash(v)], as far as the key is concerned. *)
Definition hashable (v : pyval) : result key :=
  match v with
  | VNone => Ok KNone
  | VBool b => Ok (KInt (Z.b2z b))
  | VInt z => Ok (KInt z)
  | VStr s => Ok (KStr s)
  | VList _ | VDict _ => Raise TypeError
  end.

End Py.

Abbreviation key := Py.key.

(** [for x in l: acc = f(acc, x)], stopping at the first exception. *)
Fixpoint for_each {A S : Type} (f : S -> A -> result S) (l : list A) (acc : S) : result S :=
  match l with
  | [] => Ok acc
  | x :: l' => do acc' <- f acc x ;; for_each f l' acc'
  end.

(** ** [AirtableIDIUpdater]: formatting *)

Definition name_prefixes : list string :=
  ["Mc"; "Mac"; "O'"; "De"; "Van"; "Von"; "La"; "Le"].

(** One turn of the loop over the prefixes in [title_case_name]. *)
Definition apply_prefix (name prefix : string) : string :=
  if PyStr.startswith name (PyStr.title prefix) then
    let rest := PyStr.drop (String.length prefix) name in
    match rest with
    | EmptyString => name
    | String c rest1 => prefix +:+ String (PyStr.upper_c c) rest1
    end
  else name.

Definition title_case_name (name : string) : string :=
  if bool_decide (name = "") then name
  else fold_left apply_prefix name_prefixes (PyStr.title name).

Definition abbreviations : list string :=
  ["ST"; "AVE"; "RD"; "DR"; "LN"; "CT"; "PL"; "WAY"; "BLVD";
   "N"; "S"; "E"; "W"; "NE"; "NW"; "SE"; "SW"; "US"; "RT"; "HWY"].

Definition title_case_address (address : string) : string :=
  if bool_decide (address = "") then address
  else
    let format_word word :=
      if bool_decide (PyStr.upper word ∈ abbreviations) then PyStr.upper word
      else if PyStr.isupper word && (1 <? PyStr.len word) then PyStr.title word
      else word in
    PyStr.join " " (map format_word (PyStr.split address)).

Definition clean_and_format_text (text : pyval) (field_type : string) : pyval :=
  match text with
  | VStr s =>
      if bool_decide (s = "") then text
      else
        let text := PyStr.strip s in
        if bool_decide (field_type = "email") then VStr (PyStr.lower text)
        else if bool_decide (field_type = "name") then VStr (title_case_name text)
        else if bool_decide (field_type = "relation") then VStr (PyStr.title text)
        else if bool_decide (field_type = "address") then VStr (title_case_address text)
        else if bool_decide (field_type = "general") then
          if PyStr.isupper text && (2 <? PyStr.len text) then VStr (PyStr.title text)
          else VStr text
        else VStr text
  | _ => text
  end.

Definition format_phone_number (phone : pyval) : result pyval :=
  if negb (Py.truthy phone) then Ok phone
  else
    match phone with
    | VStr s =>
        let digits := PyStr.only_digits s in
        if PyStr.len digits =? 10 then
          Ok (VStr ("(" +:+ PyStr.slice 0 3 digits +:+ ") " +:+ PyStr.slice 3 6 digits
                    +:+ "-" +:+ PyStr.drop 6 digits))
        else if (PyStr.len digits =? 11) && bool_decide (PyStr.take 1 digits = "1") then
          Ok (VStr ("(" +:+ PyStr.slice 1 4 digits +:+ ") " +:+ PyStr.slice 4 7 digits
                    +:+ "-" +:+ PyStr.drop 7 digits))
        else Ok phone
    | _ => Raise TypeError
    end.

Definition _get_field_type (field_name : string) : string :=
  if bool_decide (field_name ∈ ["First Name"; "Last Name"; "Middle Name"; "Maiden Name"])
  then "name"
  else if bool_decide (field_name = "Email") then "email"
  else if bool_decide (field_name = "Relation to Owner") then "relation"
  else "general".

Definition _is_field_empty (value : pyval) : bool :=
  match value with
  | VNone => true
  | VStr s => bool_decide (PyStr.strip s = "")
  | VInt z => z =? 0
  | VBool b => Z.b2z b =? 0
  | _ => false
  end.

(** ** The contact repository (Airtable) *)

(** A record as the repository returns it: [{"id": ..., "fields": {...}}]. *)
Record record := { rec_id : string; rec_fields : dict }.

Inductive request :=
| Search (first_name last_name : string)
| Post (table : string) (fields : dict)
| Patch (record_id : string) (fields : dict).

Definition contacts_table : string := "tblqcysYQ2KEtaw6s".
Definition properties_table : string := "tbll0FpyH3bF6pyOH".

(** The answers of the repository, each from the requests sent before.
    [None] and [false] stand for a rejected call
    ([requests.exceptions.RequestException]); the answer to a [Post] is the
    ["id"] of the new record. *)
Record repository := {
  search_response : list request -> string -> string -> option (list record);
  post_response : list request -> string -> dict -> option string;
  patch_response : list request -> string -> dict -> bool
}.

(** A computation that sends requests: it extends the log and returns a value
    or raises. *)
Record io (A : Type) := IO { run : list request -> result A * list request }.
Arguments IO {A} run.
Arguments run {A} i log.

Definition lift {A} (r : result A) : io A := IO (fun log => (r, log)).

(** [do x <~ m ;; k]: the same for computations that send requests. *)
Definition io_bind {A B : Type} (m : io A) (f : A -> io B) : io B :=
  IO (fun log =>
    match run m log with
    | (Ok a, log') => run (f a) log'
    | (Raise e, log') => (Raise e, log')
    end).

Notation "'do' x <~ m ;; k" := (io_bind m (fun x => k))
  (at level 10, x name, m at level 99, k at level 200).

(** [try: body except Exception: handler] *)
Definition try_except {A} (body handler : io A) : io A :=
  IO (fun log =>
    match run body log with
    | (Ok a, log') => (Ok a, log')
    | (Raise _, log') => run handler log'
    end).

(** [for x in l: acc = f(acc, x)] with requests. *)
Fixpoint for_each_io {A S : Type} (f : S -> A -> io S) (l : list A) (acc : S) : io S :=
  match l with
  | [] => lift (Ok acc)
  | x :: l' => do acc' <~ f acc x ;; for_each_io f l' acc'
  end.

(** The loop that translates relation ids, as it stands in
    [update_or_create_contact], [update_contact_relations_only] and
    [update_bidirectional_relations]:
    [for relation_id in relations: if relation_id in contact_id_mapping: ...append(contact_id_mapping[relation_id])]. *)
Definition map_relations (relations : pyval) (contact_id_mapping : gmap key string)
  : result (list pyval) :=
  do ids <- Py.iter relations ;;
  for_each (fun relation_record_ids relation_id =>
              do k <- Py.hashable relation_id ;;
              match contact_id_mapping !! k with
              | Some record_id => Ok (relation_record_ids ++ [VStr record_id])
              | None => Ok relation_record_ids
              end) ids [].

Section Updater.

Variable repo : repository.

(** [make_request("POST", url, data)["id"]] *)
Definition post (table : string) (fields : dict) : io string :=
  IO (fun log =>
    (match post_response repo log table fields with
     | Some id => Ok id
     | None => Raise RequestException
     end, log ++ [Post table fields])).

(** [make_request("PATCH", url, data)] on a record of the contacts table *)
Definition patch (record_id : string) (fields : dict) : io unit :=
  IO (fun log =>
    (if patch_response repo log record_id fields then Ok tt else Raise RequestException,
     log ++ [Patch record_id fields])).

Definition _search_contacts_by_name (first_name last_name : string) : io (list record) :=
  IO (fun log =>
    (match search_response repo log first_name last_name with
     | Some matches => Ok matches
     | None => Ok []
     end, log ++ [Search first_name last_name])).

Definition _is_same_person (new_contact : dict) (existing_contact : record) : result bool :=
  let new_age := Py.get new_contact "Age" in
  let existing_age := Py.get (rec_fields existing_contact) "Age" in
  if Py.truthy new_age && Py.truthy existing_age then
    do d <- Py.abs_diff new_age existing_age ;;
    Ok (negb (5 <? d))
  else Ok true.

(** [for contact in matches: if self._is_same_person(contact_data, contact): return contact] *)
Fixpoint first_same_person (contact_data : dict) (matches : list record)
  : result (option record) :=
  match matches with
  | [] => Ok None
  | contact :: rest =>
      do same <- _is_same_person contact_data contact ;;
      if same then Ok (Some contact) else first_same_person contact_data rest
  end.

Definition find_existing_contact (contact_data : dict) : io (option record) :=
  do first_name <~ lift (Py.strip (Py.or_ (Py.get contact_data "First Name") (VStr ""))) ;;
  do last_name <~ lift (Py.strip (Py.or_ (Py.get contact_data "Last Name") (VStr ""))) ;;
  if bool_decide (first_name = "") || bool_decide (last_name = "") then lift (Ok None)
  else
    do matches <~ _search_contacts_by_name first_name last_name ;;
    lift (first_same_person contact_data matches).

(** *** Field merge *)

Definition excluded_fields : list string :=
  ["Contact"; "Record ID"; "ID"; "Full Name"; "First and Last";
   "Middle Initial"; "Addresses"; "Communications"; "Own"; "Foreclosures";
   "Auction (from Foreclosures)"; "Claims"; "Loans"].

Definition merge_fields : list string :=
  ["First Name"; "Last Name"; "Middle Name"; "Suffix"; "Age";
   "Phone"; "Email"; "Relation to Owner"; "Company Name"; "Maiden Name";
   "Deceased"; "Bankruptcy"; "Sex"; "Birth Year"; "DOB"; "In Jail"].

(** The body of the loop [for field in merge_fields] of [_merge_contact_data]. *)
Definition merge_field (new_contact existing_fields merged_fields : dict) (field : string)
  : result dict :=
  let new_value := Py.get new_contact field in
  let existing_value := Py.get existing_fields field in
  if _is_field_empty existing_value && Py.truthy new_value then
    if bool_decide (field = "Phone") then
      do formatted <- format_phone_number new_value ;;
      Ok (<[field := formatted]> merged_fields)
    else
      Ok (<[field := clean_and_format_text new_value (_get_field_type field)]> merged_fields)
  else if Py.truthy existing_value then Ok (<[field := existing_value]> merged_fields)
  else Ok merged_fields.

Definition _merge_contact_data (new_contact : dict) (existing_contact : record) : result dict :=
  let existing_fields := rec_fields existing_contact in
  let merged_fields : dict :=
    {[ "IDI" := VBool true; "Traced" := VBool true; "Entity Type" := VStr "Person" ]} in
  let merged_fields :=
    filter (fun kv => kv.1 ∉ excluded_fields) existing_fields ∪ merged_fields in
  for_each (merge_field new_contact existing_fields) merge_fields merged_fields.

(** *** Relations and foreclosures *)

(** [if contact_id_mapping and idi_contact.get("Relations"): ...
    if relation_record_ids: fields["Relations"] = relation_record_ids] *)
Definition add_relations (idi_contact : dict) (contact_id_mapping : option (gmap key string))
    (fields : dict) : result dict :=
  match contact_id_mapping with
  | Some mapping =>
      if negb (bool_decide (mapping = ∅)) && Py.truthy (Py.get idi_contact "Relations") then
        do relations <- Py.getitem idi_contact "Relations" ;;
        do relation_record_ids <- map_relations relations mapping ;;
        Ok (if bool_decide (relation_record_ids = []) then fields
            else <["Relations" := VList relation_record_ids]> fields)
      else Ok fields
  | None => Ok fields
  end.

(** [contact.get("Relation to Owner", "").strip()] *)
Definition relation_to_owner (contact : dict) : result string :=
  Py.strip (Py.get_default contact "Relation to Owner" (VStr "")).

(** [next((c for c in all_idi_contacts if c.get("ID") == relation_id), None)] *)
Definition contact_with_id (all_idi_contacts : list dict) (relation_id : pyval) : option dict :=
  List.find (fun c => Py.eqb (Py.get c "ID") relation_id) all_idi_contacts.

(** The loop over the relations of a relative in [find_owner_foreclosures]. *)
Fixpoint owner_foreclosures_among (all_idi_contacts : list dict) (relations : list pyval)
  : io pyval :=
  match relations with
  | [] => lift (Ok (VList []))
  | relation_id :: rest =>
      match contact_with_id all_idi_contacts relation_id with
      | Some related_contact =>
          if bool_decide (related_contact = ∅) then owner_foreclosures_among all_idi_contacts rest
          else
            do related_relation <~ lift (relation_to_owner related_contact) ;;
            if bool_decide (PyStr.lower related_relation = "owner") then
              do existing_owner <~ find_existing_contact related_contact ;;
              match existing_owner with
              | Some owner =>
                  let foreclosures :=
                    Py.get_default (rec_fields owner) "Foreclosures" (VList []) in
                  if Py.truthy foreclosures then lift (Ok foreclosures)
                  else owner_foreclosures_among all_idi_contacts rest
              | None => owner_foreclosures_among all_idi_contacts rest
              end
            else owner_foreclosures_among all_idi_contacts rest
      | None => owner_foreclosures_among all_idi_contacts rest
      end
  end.

Definition find_owner_foreclosures (idi_contact : dict) (all_idi_contacts : list dict)
  : io pyval :=
  do relation <~ lift (relation_to_owner idi_contact) ;;
  if bool_decide (PyStr.lower relation = "owner") then
    do existing_contact <~ find_existing_contact idi_contact ;;
    match existing_contact with
    | Some existing =>
        lift (Ok (Py.get_default (rec_fields existing) "Foreclosures" (VList [])))
    | None => lift (Ok (VList []))
    end
  else
    do relations <~ lift (Py.iter (Py.get_default idi_contact "Relations" (VList []))) ;;
    owner_foreclosures_among all_idi_contacts relations.

(** *** Properties *)

(** [if property_data.get(k): fields[k] = f(property_data[k])] *)
Definition copy_field (property_data : dict) (k : string) (f : pyval -> result pyval)
    (fields : dict) : result dict :=
  if Py.truthy (Py.get property_data k) then
    do v <- f (Py.get property_data k) ;; Ok (<[k := v]> fields)
  else Ok fields.

(** [v.upper()] *)
Definition py_upper (v : pyval) : result pyval :=
  match v with
  | VStr s => Ok (VStr (PyStr.upper s))
  | _ => Raise AttributeError
  end.

(** The field mapping of [create_property_record]. *)
Definition property_fields (property_data : pyval) (contact_record_id : string)
  : result dict :=
  match property_data with
  | VDict property_data =>
      let formatted field_type v := Ok (clean_and_format_text v field_type) in
      let airtable_fields : dict :=
        {[ "IDI" := VBool true; "Contacts" := VList [VStr contact_record_id] ]} in
      do airtable_fields <- copy_field property_data "Street 1" (formatted "address") airtable_fields ;;
      do airtable_fields <- copy_field property_data "City" (formatted "general") airtable_fields ;;
      do airtable_fields <- copy_field property_data "State" py_upper airtable_fields ;;
      do airtable_fields <- copy_field property_data "Zip Code" Ok airtable_fields ;;
      do airtable_fields <- copy_field property_data "County" (formatted "general") airtable_fields ;;
      let airtable_fields := <["Type" := VStr "Contact"]> airtable_fields in
      do airtable_fields <- copy_field property_data "Street Number" Ok airtable_fields ;;
      do airtable_fields <- copy_field property_data "Street Name" (formatted "address") airtable_fields ;;
      do airtable_fields <- copy_field property_data "Street Suffix" py_upper airtable_fields ;;
      copy_field property_data "Property Type" (formatted "general") airtable_fields
  | _ => Raise AttributeError
  end.

Definition create_property_record (property_data : pyval) (contact_record_id : string)
  : io (option string) :=
  do airtable_fields <~ lift (property_fields property_data contact_record_id) ;;
  try_except
    (do id <~ post properties_table airtable_fields ;; lift (Ok (Some id)))
    (lift (Ok None)).

(** The part of [update_or_create_contact] that processes
    ["Contact Addresses"] once the contact has its record. *)
Definition process_properties (idi_contact : dict) (contact_record_id : string) : io unit :=
  let contact_addresses := Py.get_default idi_contact "Contact Addresses" (VList []) in
  if Py.truthy contact_addresses then
    do _n <~ lift (Py.len contact_addresses) ;;
    do items <~ lift (Py.iter contact_addresses) ;;
    do property_ids <~
      for_each_io
        (fun property_ids property_data =>
           do property_id <~ create_property_record property_data contact_record_id ;;
           lift (Ok (match property_id with
                     | Some id =>
                         if bool_decide (id = "") then property_ids
                         else property_ids ++ [VStr id]
                     | None => property_ids
                     end)))
        items [] ;;
    if bool_decide (property_ids = []) then lift (Ok tt)
    else
      try_except
        (patch contact_record_id {[ "Contact Addresses" := VList property_ids ]})
        (lift (Ok tt))
  else lift (Ok tt).

(** *** Create or update *)

(** [if cond: fields[k] = v] *)
Definition set_if (cond : bool) (k : string) (v : pyval) (fields : dict) : dict :=
  if cond then <[k := v]> fields else fields.

(** The fields of a new contact, before foreclosures and relations. *)
Definition basic_contact_fields (idi_contact : dict) : result dict :=
  let first_name := Py.get_default idi_contact "First Name" (VStr "") in
  let last_name := Py.get_default idi_contact "Last Name" (VStr "") in
  let value k := Py.get idi_contact k in
  let formatted k field_type fields :=
    set_if (Py.truthy (value k)) k (clean_and_format_text (value k) field_type) fields in
  let contact_fields : dict :=
    {[ "IDI" := VBool true; "Traced" := VBool true; "Entity Type" := VStr "Person" ]} in
  let contact_fields :=
    set_if (Py.truthy first_name) "First Name" (clean_and_format_text first_name "name") contact_fields in
  let contact_fields :=
    set_if (Py.truthy last_name) "Last Name" (clean_and_format_text last_name "name") contact_fields in
  let contact_fields := formatted "Middle Name" "name" contact_fields in
  let contact_fields := formatted "Suffix" "general" contact_fields in
  let contact_fields := set_if (Py.truthy (value "Age")) "Age" (value "Age") contact_fields in
  do contact_fields <-
    (if Py.truthy (value "Phone") then
       do phone <- format_phone_number (value "Phone") ;; Ok (<["Phone" := phone]> contact_fields)
     else Ok contact_fields) ;;
  let contact_fields := formatted "Email" "email" contact_fields in
  let contact_fields := formatted "Relation to Owner" "relation" contact_fields in
  let contact_fields := formatted "Company Name" "general" contact_fields in
  let contact_fields := formatted "Maiden Name" "name" contact_fields in
  let contact_fields :=
    set_if (negb (bool_decide (value "Deceased" = VNone))) "Deceased" (value "Deceased") contact_fields in
  let contact_fields :=
    set_if (negb (bool_decide (value "Bankruptcy" = VNone))) "Bankruptcy" (value "Bankruptcy") contact_fields in
  Ok contact_fields.

(** [if all_idi_contacts:] *)
Definition some_contacts (all_idi_contacts : option (list dict)) : option (list dict) :=
  match all_idi_contacts with
  | Some (c :: l) => Some (c :: l)
  | _ => None
  end.

Definition update_or_create_contact (idi_contact : dict)
    (contact_id_mapping : option (gmap key string))
    (all_idi_contacts : option (list dict)) : io (option string) :=
  let first_name := Py.get_default idi_contact "First Name" (VStr "") in
  let last_name := Py.get_default idi_contact "Last Name" (VStr "") in
  if negb (Py.truthy first_name) && negb (Py.truthy last_name) then lift (Ok None)
  else
    do existing_contact <~ find_existing_contact idi_contact ;;
    do contact_fields <~ lift (basic_contact_fields idi_contact) ;;
    do contact_fields <~
      match some_contacts all_idi_contacts with
      | Some contacts =>
          do owner_foreclosures <~ find_owner_foreclosures idi_contact contacts ;;
          lift (Ok (set_if (Py.truthy owner_foreclosures) "Foreclosures" owner_foreclosures
                      contact_fields))
      | None => lift (Ok contact_fields)
      end ;;
    do contact_fields <~ lift (add_relations idi_contact contact_id_mapping contact_fields) ;;
    try_except
      (do contact_record_id <~
         match existing_contact with
         | Some existing =>
             do merged_fields <~ lift (_merge_contact_data idi_contact existing) ;;
             do merged_fields <~ lift (add_relations idi_contact contact_id_mapping merged_fields) ;;
             do merged_fields <~
               match some_contacts all_idi_contacts with
               | Some contacts =>
                   do owner_foreclosures <~ find_owner_foreclosures idi_contact contacts ;;
                   let existing_foreclosures :=
                     Py.get_default (rec_fields existing) "Foreclosures" (VList []) in
                   if Py.truthy owner_foreclosures then
                     do n <~ lift (Py.len existing_foreclosures) ;;
                     lift (Ok (set_if (n =? 0) "Foreclosures" owner_foreclosures merged_fields))
                   else lift (Ok merged_fields)
               | None => lift (Ok merged_fields)
               end ;;
             do _u <~ patch (rec_id existing) merged_fields ;;
             lift (Ok (rec_id existing))
         | None => post contacts_table contact_fields
         end ;;
       do _u <~ process_properties idi_contact contact_record_id ;;
       lift (Ok (Some contact_record_id)))
      (lift (Ok None)).

(** *** Second pass: relations *)

(** The body of the loop of [update_bidirectional_relations]. *)
Definition update_relations_of (contact_id_mapping : gmap key string)
    (relations_updated : Z) (entry : dict * Z) : io Z :=
  let idi_contact := entry.1 in
  do id <~ lift (Py.getitem idi_contact "ID") ;;
  do k <~ lift (Py.hashable id) ;;
  match contact_id_mapping !! k with
  | Some contact_record_id =>
      if Py.truthy (Py.get idi_contact "Relations") then
        do relations <~ lift (Py.getitem idi_contact "Relations") ;;
        do relation_record_ids <~ lift (map_relations relations contact_id_mapping) ;;
        if bool_decide (relation_record_ids = []) then lift (Ok relations_updated)
        else
          try_except
            (do _u <~ patch contact_record_id {[ "Relations" := VList relation_record_ids ]} ;;
             lift (Ok (relations_updated + 1)))
            (lift (Ok relations_updated))
      else lift (Ok relations_updated)
  | None => lift (Ok relations_updated)
  end.

Definition update_bidirectional_relations (all_contacts_with_ids : list (dict * Z))
    (contact_id_mapping : gmap key string) : io Z :=
  for_each_io (update_relations_of contact_id_mapping) all_contacts_with_ids 0.

End Updater.

(** ** [test_3_contacts.py]: deduplication *)

(** [(contact.get(k) or '').strip()] *)
Definition name_part (contact : dict) (k : string) : result string :=
  Py.strip (Py.or_ (Py.get contact k) (VStr "")).

(** [f"{first_name.lower()}|{last_name.lower()}"] *)
Definition name_key (first_name last_name : string) : string :=
  PyStr.lower first_name +:+ "|" +:+ PyStr.lower last_name.

(** [sum(1 for v in contact.values() if v and v != '')] *)
Definition count_fields (contact : dict) : Z :=
  Z.of_nat (length (List.filter (fun kv => Py.truthy kv.2 && negb (Py.eqb kv.2 (VStr "")))
                                (map_to_list contact))).

(** [for i, (stored_contact, stored_depth) in enumerate(deduplicated):
       if stored_contact == existing_contact: deduplicated[i] = (contact, depth); break] *)
Fixpoint replace_first (existing_contact : dict) (entry : dict * Z)
    (deduplicated : list (dict * Z)) : list (dict * Z) :=
  match deduplicated with
  | [] => []
  | stored :: rest =>
      if Py.dict_eqb stored.1 existing_contact then entry :: rest
      else stored :: replace_first existing_contact entry rest
  end.

Record dedup_state := {
  seen_contacts : gmap string (dict * Z);
  deduplicated : list (dict * Z)
}.

(** [age and existing_age and abs(age - existing_age) > 2] *)
Definition age_gap_exceeds (threshold : Z) (age existing_age : pyval) : result bool :=
  if Py.truthy age && Py.truthy existing_age then
    do d <- Py.abs_diff age existing_age ;; Ok (threshold <? d)
  else Ok false.

(** The body of the loop of [deduplicate_contacts]. *)
Definition dedup_step (st : dedup_state) (entry : dict * Z) : result dedup_state :=
  let contact := entry.1 in
  let keep_both :=
    {| seen_contacts := seen_contacts st; deduplicated := deduplicated st ++ [entry] |} in
  do first_name <- name_part contact "First Name" ;;
  do last_name <- name_part contact "Last Name" ;;
  do _middle_name <- name_part contact "Middle Name" ;;
  do suffix <- name_part contact "Suffix" ;;
  let age := Py.get contact "Age" in
  let key := name_key first_name last_name in
  match seen_contacts st !! key with
  | Some (existing_contact, _) =>
      let replace :=
        {| seen_contacts := <[key := entry]> (seen_contacts st);
           deduplicated := replace_first existing_contact entry (deduplicated st) |} in
      do _existing_middle <- name_part existing_contact "Middle Name" ;;
      do existing_suffix <- name_part existing_contact "Suffix" ;;
      let existing_age := Py.get existing_contact "Age" in
      if negb (bool_decide (suffix = "")) && negb (bool_decide (existing_suffix = ""))
         && negb (bool_decide (PyStr.lower suffix = PyStr.lower existing_suffix))
      then Ok keep_both
      else
        do different_age <- age_gap_exceeds 2 age existing_age ;;
        if different_age then Ok keep_both
        else
          do current_relation <- relation_to_owner contact ;;
          do existing_relation <- relation_to_owner existing_contact ;;
          let current_relation := PyStr.lower current_relation in
          let existing_relation := PyStr.lower existing_relation in
          if bool_decide (current_relation = "owner")
             && negb (bool_decide (existing_relation = "owner"))
          then Ok replace
          else if bool_decide (existing_relation = "owner")
                  && negb (bool_decide (current_relation = "owner"))
          then Ok st
          else if count_fields existing_contact <? count_fields contact then Ok replace
          else Ok st
  | None =>
      Ok {| seen_contacts := <[key := entry]> (seen_contacts st);
            deduplicated := deduplicated st ++ [entry] |}
  end.

Definition deduplicate_contacts (contacts_with_depth : list (dict * Z))
  : result (list (dict * Z)) :=
  do st <- for_each dedup_step contacts_with_depth
             {| seen_contacts := ∅; deduplicated := [] |} ;;
  Ok (deduplicated st).

(** ** [test_3_contacts.py]: network discovery *)

Record network := {
  processed_ids : gset key;
  contacts_to_process : list (dict * Z)
}.

(** [contact_by_id = {contact['ID']: contact for contact in idi_contacts}] *)
Definition index_contacts (idi_contacts : list dict) : result (gmap key dict) :=
  for_each (fun by_id contact =>
              do id <- Py.getitem contact "ID" ;;
              do k <- Py.hashable id ;;
              Ok (<[k := contact]> by_id))
           idi_contacts ∅.

(** [for relation_id in relations: if relation_id in contact_by_id:
       add_contact_and_relations(contact_by_id[relation_id], depth + 1, max_depth)];
    [visit] is the recursive call.  [None] means that the recursion was cut
    before the call returned. *)
Fixpoint visit_relations (contact_by_id : gmap key dict)
    (visit : dict -> network -> option (result network))
    (relations : list pyval) (net : network) : option (result network) :=
  match relations with
  | [] => Some (Ok net)
  | relation_id :: rest =>
      match Py.hashable relation_id with
      | Raise e => Some (Raise e)
      | Ok k =>
          match contact_by_id !! k with
          | Some related =>
              match visit related net with
              | Some (Ok net') => visit_relations contact_by_id visit rest net'
              | stopped => stopped
              end
          | None => visit_relations contact_by_id visit rest net
          end
      end
  end.

(** The recursive function of the script; [fuel] bounds the depth of the
    Python call stack. *)
Fixpoint add_contact_and_relations (fuel : nat) (contact_by_id : gmap key dict)
    (contact : dict) (depth max_depth : Z) (net : network) : option (result network) :=
  match fuel with
  | O => None
  | S fuel' =>
      match (do id <- Py.getitem contact "ID" ;; Py.hashable id) with
      | Raise e => Some (Raise e)
      | Ok contact_id =>
          if bool_decide (contact_id ∈ processed_ids net) || (max_depth <? depth)
          then Some (Ok net)
          else
            let net :=
              {| processed_ids := {[contact_id]} ∪ processed_ids net;
                 contacts_to_process := contacts_to_process net ++ [(contact, depth)] |} in
            let relations := Py.get_default contact "Relations" (VList []) in
            if Py.truthy relations then
              match (do _n <- Py.len relations ;; Py.iter relations) with
              | Raise e => Some (Raise e)
              | Ok ids =>
                  visit_relations contact_by_id
                    (fun related net' =>
                       add_contact_and_relations fuel' contact_by_id related
                         (depth + 1) max_depth net')
                    ids net
              end
            else Some (Ok net)
      end
  end.

(** [for contact in initial_contacts: add_contact_and_relations(contact)];
    the script leaves [max_depth] at its default, 2. *)
Fixpoint discover_from (fuel : nat) (contact_by_id : gmap key dict)
    (initial_contacts : list dict) (max_depth : Z) (net : network)
  : option (result network) :=
  match initial_contacts with
  | [] => Some (Ok net)
  | contact :: rest =>
      match add_contact_and_relations fuel contact_by_id contact 0 max_depth net with
      | Some (Ok net') => discover_from fuel contact_by_id rest max_depth net'
      | stopped => stopped
      end
  end.

Definition discover_network (fuel : nat) (contact_by_id : gmap key dict)
    (initial_contacts : list dict) (max_depth : Z) : option (result (list (dict * Z))) :=
  match discover_from fuel contact_by_id initial_contacts max_depth
          {| processed_ids := ∅; contacts_to_process := [] |} with
  | Some (Ok net) => Some (Ok (contacts_to_process net))
  | Some (Raise e) => Some (Raise e)
  | None => None
  end.

(** ** [test_3_contacts.py]: first pass *)

(** The body of the loop of pass 1: the contact is created or updated and,
    when that gave a record id, entered in the mapping. *)
Definition pass1_step (repo : repository) (contacts_to_process : list (dict * Z))
    (acc : gmap key string * Z) (entry : dict * Z) : io (gmap key string * Z) :=
  let contact := entry.1 in
  do _a <~ lift (Py.len (Py.get_default contact "Contact Addresses" (VList []))) ;;
  do _r <~ lift (Py.len (Py.get_default contact "Relations" (VList []))) ;;
  let all_contacts := map fst contacts_to_process in
  do contact_record_id <~ update_or_create_contact repo contact None (Some all_contacts) ;;
  match contact_record_id with
  | Some id =>
      if bool_decide (id = "") then lift (Ok acc)
      else
        do cid <~ lift (Py.getitem contact "ID") ;;
        do k <~ lift (Py.hashable cid) ;;
        lift (Ok (<[k := id]> acc.1, acc.2 + 1))
  | None => lift (Ok acc)
  end.

Definition pass1 (repo : repository) (contacts_to_process : list (dict * Z))
  : io (gmap key string * Z) :=
  for_each_io (pass1_step repo contacts_to_process) contacts_to_process (∅, 0).

(** ** Notions used by the statements *)

(** The value, when it is text, is ASCII; every text a dict holds is ASCII. *)
Definition ascii_value (v : pyval) : bool :=
  match v with
  | VStr s => PyStr.is_ascii s
  | _ => true
  end.

Definition ascii_fields (d : dict) : bool :=
  forallb (fun kv => ascii_value kv.2) (map_to_list d).

(** The new value after type-specific formatting: what [_merge_contact_data]
    stores when it takes the new value of [field]. *)
Definition type_formatted (field : string) (new_value : pyval) : result pyval :=
  if bool_decide (field = "Phone") then format_phone_number new_value
  else Ok (clean_and_format_text new_value (_get_field_type field)).

(** The test of [_merge_contact_data]: the existing value is empty and the
    new one is not ([new_value] counts as true). *)
Definition takes_new (new_contact existing_fields : dict) (field : string) : bool :=
  _is_field_empty (Py.get existing_fields field) && Py.truthy (Py.get new_contact field).

(** The merge rule for one field: [after] is what the merged field set holds
    under [field]. *)
Definition merged_entry (new_contact existing_fields : dict) (field : string)
    (after : option pyval) : Prop :=
  if takes_new new_contact existing_fields field then
    exists v, type_formatted field (Py.get new_contact field) = Ok v /\ after = Some v
  else after = existing_fields !! field.

(** [merged[field]] after [_merge_contact_data], as [merged.get(field)]. *)
Definition merged_value (new_contact : dict) (existing_contact : record) (field : string)
  : result pyval :=
  do merged <- _merge_contact_data new_contact existing_contact ;;
  Ok (Py.get merged field).

(** An age as the data model has it: an integer, or none. *)
Definition age_typed (v : pyval) : bool :=
  match v with
  | VNone | VInt _ => true
  | _ => false
  end.

(** The age-incompatibility of the specification: both sides have a present,
    non-zero age and the absolute difference exceeds the threshold. *)
Definition present_age (v : pyval) : option Z :=
  match v with
  | VInt z => if z =? 0 then None else Some z
  | _ => None
  end.

Definition age_incompatible (threshold : Z) (age existing_age : pyval) : bool :=
  match present_age age, present_age existing_age with
  | Some a, Some b => threshold <? Z.abs (a - b)
  | _, _ => false
  end.

(** A repository record is ruled out for a candidate (identity matcher,
    threshold 5). *)
Definition ruled_out (candidate : dict) (existing : record) : bool :=
  age_incompatible 5 (Py.get candidate "Age") (Py.get (rec_fields existing) "Age").

(** ** Sample data *)

Definition john_40 : dict :=
  {[ "ID" := VInt 1; "First Name" := VStr "John"; "Last Name" := VStr "Smith";
     "Age" := VInt 40; "Relation to Owner" := VStr "Owner" ]}.

Definition john_41 : dict :=
  {[ "ID" := VInt 2; "First Name" := VStr " john"; "Last Name" := VStr "SMITH";
     "Age" := VInt 41; "Relation to Owner" := VStr "Spouse" ]}.

Definition stored_john_50 : record :=
  {| rec_id := "recA"; rec_fields := {[ "First Name" := VStr "John"; "Age" := VInt 50 ]} |}.

Definition stored_john_42 : record :=
  {| rec_id := "recB"; rec_fields := {[ "First Name" := VStr "John"; "Age" := VInt 42 ]} |}.

(** A repository that finds two records for every name and accepts every
    write. *)
Definition two_johns : repository :=
  {| search_response := fun _ _ _ => Some [stored_john_50; stored_john_42];
     post_response := fun _ _ _ => Some "recNEW";
     patch_response := fun _ _ _ => true |}.

(** A repository that rejects every search and accepts every write. *)
Definition search_down : repository :=
  {| search_response := fun _ _ _ => None;
     post_response := fun _ _ _ => Some "recNEW";
     patch_response := fun _ _ _ => true |}.

(** ** Notions used by the statements on deduplication *)

Definition is_ok {A : Type} (r : result A) : bool :=
  match r with
  | Ok _ => true
  | Raise _ => false
  end.

(** The normalized name of a contact: the key [deduplicate_contacts] files it
    under. *)
Definition key_of (contact : dict) : result string :=
  do first_name <- name_part contact "First Name" ;;
  do last_name <- name_part contact "Last Name" ;;
  Ok (name_key first_name last_name).

(** The fields [deduplicate_contacts] reads have the types of the data model:
    the names and the suffix are strings or none, the age is an integer or
    none, the relation label is a string when present. *)
Definition dedup_typed (contact : dict) : bool :=
  is_ok (name_part contact "First Name") && is_ok (name_part contact "Last Name")
  && is_ok (name_part contact "Middle Name") && is_ok (name_part contact "Suffix")
  && age_typed (Py.get contact "Age") && is_ok (relation_to_owner contact).

Definition has_key (k : string) (entry : dict * Z) : bool :=
  bool_decide (key_of entry.1 = Ok k).

(** The contact is the Owner: its relation label, trimmed and lower-cased, is
    "owner". *)
Definition is_owner (contact : dict) : Prop :=
  exists label, relation_to_owner contact = Ok label /\ PyStr.lower label = "owner".

(** The contact has a relation label that is not the Owner's (a missing label
    reads as the empty one). *)
Definition is_not_owner (contact : dict) : Prop :=
  exists label, relation_to_owner contact = Ok label /\ PyStr.lower label <> "owner".

(** Every record [seen_contacts] keeps is filed under its own key and is
    well typed. *)
Definition seen_ok (st : dedup_state) : Prop :=
  forall k c d, seen_contacts st !! k = Some (c, d) ->
                key_of c = Ok k /\ dedup_typed c = true.

(** Of two records of one person, the later one replaces the earlier one
    when it alone is the Owner's, or when neither or both are and it has more
    non-empty fields. *)
Definition replaces (first second : dict) (first_label second_label : string) : bool :=
  let first_owner := bool_decide (PyStr.lower first_label = "owner") in
  let second_owner := bool_decide (PyStr.lower second_label = "owner") in
  if second_owner && negb first_owner then true
  else if first_owner && negb second_owner then false
  else count_fields first <? count_fields second.

Definition nameless_1 : dict := {[ "ID" := VInt 1; "First Name" := VNone; "Last Name" := VStr " " ]}.
Definition nameless_2 : dict := {[ "ID" := VInt 2; "Last Name" := VStr "" ]}.

Definition jane_33 : dict :=
  {[ "ID" := VInt 3; "First Name" := VStr "Jane"; "Last Name" := VStr "Smith";
     "Age" := VInt 33; "Relation to Owner" := VStr "Child" ]}.

(** A third record of the name of [john_40] and [john_41], twenty years
    older, and one as the converter writes it when no label is given. *)
Definition john_60 : dict :=
  {[ "ID" := VInt 4; "First Name" := VStr "John"; "Last Name" := VStr "Smith";
     "Age" := VInt 60; "Relation to Owner" := VStr "Parent" ]}.

Definition john_unlabelled : dict :=
  {[ "ID" := VInt 5; "First Name" := VStr "John"; "Last Name" := VStr "Smith";
     "Age" := VInt 41; "Relation to Owner" := VNone ]}.

(** Three contacts in a chain, with links in both directions, and one that
    lists itself. *)
Definition contact_a : dict :=
  {[ "ID" := VInt 1; "First Name" := VStr "Ann"; "Relations" := VList [VInt 2] ]}.
Definition contact_b : dict :=
  {[ "ID" := VInt 2; "First Name" := VStr "Bob"; "Relations" := VList [VInt 1; VInt 3] ]}.
Definition contact_c : dict :=
  {[ "ID" := VInt 3; "First Name" := VStr "Cyd"; "Relations" := VList [VInt 2] ]}.
Definition contact_self : dict :=
  {[ "ID" := VInt 4; "Relations" := VList [VInt 4; VInt 4] ]}.

Definition chain_by_id : gmap key dict :=
  {[ Py.KInt 1 := contact_a; Py.KInt 2 := contact_b; Py.KInt 3 := contact_c;
     Py.KInt 4 := contact_self ]}.

(** ** Notions used by the statements on the two passes *)

(** [test_5_contacts] from pass 1 on: every contact is created or updated,
    then the relations are written. *)
Definition process_network (repo : repository) (contacts_to_process : list (dict * Z))
  : io (Z * Z) :=
  do first_pass <~ pass1 repo contacts_to_process ;;
  do relations_updated <~
    update_bidirectional_relations repo contacts_to_process first_pass.1 ;;
  lift (Ok (first_pass.2, relations_updated)).

Definition is_patch (r : request) : bool :=
  match r with
  | Patch _ _ => true
  | _ => false
  end.

(** A contact has the types of the data model in every field the two passes
    read: besides the fields of [dedup_typed], the phone is a string or none,
    the relations are a list of integers, the ID is an integer and the
    addresses are a list. *)
Definition int_list (v : pyval) : bool :=
  match v with
  | VList l => forallb (fun x => match x with VInt _ => true | _ => false end) l
  | _ => false
  end.

Definition contact_typed (contact : dict) : bool :=
  dedup_typed contact
  && match Py.get contact "Phone" with VNone | VStr _ => true | _ => false end
  && int_list (Py.get_default contact "Relations" (VList []))
  && match contact !! "ID" with Some (VInt _) => true | _ => false end
  && match Py.get_default contact "Contact Addresses" (VList []) with
     | VList _ => true
     | _ => false
     end.

(** The records a repository finds carry an age that is an integer or none. *)
Definition repo_typed (repo : repository) : Prop :=
  forall log first_name last_name matches,
    search_response repo log first_name last_name = Some matches ->
    Forall (fun r => age_typed (Py.get (rec_fields r) "Age") = true) matches.

(** The computation never raises and only adds requests to the log. *)
Definition safe {A : Type} (m : io A) : Prop :=
  forall log, exists a more, run m log = (Ok a, log ++ more).

(** The computation only adds requests to the log. *)
Definition extends {A : Type} (m : io A) : Prop :=
  forall log, exists r more, run m log = (r, log ++ more).

(** Two contacts A and B; only A lists the other. *)
Definition person_a : dict :=
  {[ "ID" := VInt 1; "First Name" := VStr "A"; "Last Name" := VStr "Smith";
     "Relations" := VList [VInt 2] ]}.
Definition person_b : dict :=
  {[ "ID" := VInt 2; "First Name" := VStr "B"; "Last Name" := VStr "Smith";
     "Relations" := VList [] ]}.

(** A repository that finds nothing and names each new record after the
    first name it is created with. *)
Definition fresh_repo : repository :=
  {| search_response := fun _ _ _ => Some [];
     post_response := fun _ _ fields =>
       match fields !! "First Name" with
       | Some (VStr s) => Some ("ext" +:+ s)
       | _ => Some "ext"
       end;
     patch_response := fun _ _ _ => true |}.

(** The computation returns normally and, among the requests it adds to the
    log, there is a create on the contacts table. *)
Definition creates {A : Type} (m : io A) : Prop :=
  forall log, exists a fields between after,
    run m log = (Ok a, log ++ between ++ Post contacts_table fields :: after).

(** ** Notions used by the statements on formatting *)

(** The string has no white space at its start ([starts_clean]) or at its end
    ([ends_clean]): what [strip] establishes. *)
Definition starts_clean (s : string) : bool :=
  match s with
  | EmptyString => true
  | String c _ => negb (PyStr.isspace_c c)
  end.

Fixpoint ends_clean (s : string) : bool :=
  match s with
  | EmptyString => true
  | String c EmptyString => negb (PyStr.isspace_c c)
  | String _ r => ends_clean r
  end.

(** Every character is a decimal digit. *)
Fixpoint all_digits (s : string) : bool :=
  match s with
  | EmptyString => true
  | String c r => PyStr.isdigit_c c && all_digits r
  end.

(** * Properties *)

(** ** The embedding on small inputs *)

Example strip_ex : PyStr.strip "  John " = "John".
Proof. reflexivity. Qed.
Example title_ex : PyStr.title "o'connor mcDOWELL 3rd" = "O'Connor Mcdowell 3Rd".
Proof. reflexivity. Qed.
Example split_ex : PyStr.split " 12  main ST " = ["12"; "main"; "ST"].
Proof. reflexivity. Qed.
Example join_ex : PyStr.join " " ["12"; "Main"; "ST"] = "12 Main ST".
Proof. reflexivity. Qed.
Example isupper_ex : PyStr.isupper "JR." = true /\ PyStr.isupper "Jr" = false /\ PyStr.isupper "12" = false.
Proof. repeat split; reflexivity. Qed.
Example eqb_bool_int : Py.eqb (VBool true) (VInt 1) = true /\ Py.eqb (VStr "1") (VInt 1) = false.
Proof. split; reflexivity. Qed.
Example dict_eqb_ex :
  Py.dict_eqb {[ "a" := VInt 1; "b" := VList [VBool false] ]} {[ "b" := VList [VInt 0]; "a" := VBool true ]} = true.
Proof. vm_compute. reflexivity. Qed.
Example title_case_name_ex :
  title_case_name "mcdowell" = "McDowell" /\ title_case_name "o'connor" = "O'Connor"
  /\ title_case_name "SMITH" = "Smith" /\ title_case_name "machine" = "MacHine".
Proof. repeat split; reflexivity. Qed.
Example title_case_address_ex : title_case_address "12 MAIN st" = "12 Main ST".
Proof. reflexivity. Qed.
Example format_phone_ex :
  format_phone_number (VStr "1-555-123-4567") = Ok (VStr "(555) 123-4567")
  /\ format_phone_number (VStr "12345") = Ok (VStr "12345").
Proof. split; reflexivity. Qed.

(** ** Name formatting *)

Lemma title_not_empty (s : string) : s <> "" -> PyStr.title s <> "".
Proof. destruct s; [congruence | discriminate]. Qed.

Lemma title_case_name_prefix (name prefix : string) (c : ascii) (rest : string) :
  prefix ∈ name_prefixes ->
  PyStr.title name = prefix +:+ String c rest ->
  title_case_name name = prefix +:+ String (PyStr.upper_c c) rest.
Proof.
  intros Hin Htitle. unfold title_case_name.
  destruct (decide (name = "")) as [-> | Hne].
  - destruct prefix; discriminate.
  - rewrite bool_decide_false by done. rewrite Htitle.
    unfold name_prefixes in *.
    repeat (apply elem_of_cons in Hin as [-> | Hin]; [reflexivity |]).
    by apply elem_of_nil in Hin.
Qed.

(** C10.  Name-field formatting ([clean_and_format_text] with the field type
    "name") strips the text, title-cases it and, when the title-cased form
    begins with one of the prefixes Mc, Mac, O', De, Van, Von, La, Le,
    upper-cases the character that follows the prefix.  This also applies to
    ordinary names that merely begin with these letters: "mcdowell" becomes
    "McDowell", but "dennis" becomes "DeNnis" and "lance" becomes "LaNce",
    where plain title case gives "Dennis" and "Lance".  Stated for ASCII
    text, on which the string functions of the embedding are Python's. *)
Theorem name_formatting_capitalises_after_prefix :
  (forall (text prefix : string) (c : ascii) (rest : string),
      PyStr.is_ascii text = true ->
      prefix ∈ name_prefixes ->
      PyStr.title (PyStr.strip text) = prefix +:+ String c rest ->
      clean_and_format_text (VStr text) "name"
      = VStr (prefix +:+ String (PyStr.upper_c c) rest))
  /\ clean_and_format_text (VStr "mcdowell") "name" = VStr "McDowell"
  /\ clean_and_format_text (VStr "dennis") "name" = VStr "DeNnis"
  /\ clean_and_format_text (VStr "lance") "name" = VStr "LaNce"
  /\ PyStr.title "dennis" = "Dennis" /\ PyStr.title "lance" = "Lance".
Proof.
  split; [| repeat split; reflexivity].
  intros text prefix c rest _ Hin Htitle.
  unfold clean_and_format_text.
  destruct (decide (text = "")) as [-> | Hne].
  - destruct prefix; discriminate.
  - rewrite bool_decide_false by done. simpl.
    f_equal. by apply title_case_name_prefix.
Qed.

Lemma name_formatting_capitalises_after_prefix_witness :
  clean_and_format_text (VStr " dennis ") "name" = VStr "DeNnis".
Proof.
  apply (proj1 name_formatting_capitalises_after_prefix " dennis " "De" "n"%char "nis").
  - reflexivity.
  - unfold name_prefixes. do 3 apply list_elem_of_further. apply list_elem_of_here.
  - reflexivity.
Defined.

(** ** Field merge *)

Section Merge.

Variables (new_contact existing_fields : dict).

Lemma get_truthy_lookup (d : dict) (k : string) :
  Py.truthy (Py.get d k) = true -> d !! k = Some (Py.get d k).
Proof. unfold Py.get. destruct (d !! k); simpl; [done | discriminate]. Qed.

Lemma merge_field_spec (merged merged' : dict) (field : string) :
  merge_field new_contact existing_fields merged field = Ok merged' ->
  merged !! field = existing_fields !! field ->
  merged_entry new_contact existing_fields field (merged' !! field)
  /\ forall other, other <> field -> merged' !! other = merged !! other.
Proof.
  unfold merge_field, merged_entry, takes_new, type_formatted.
  intros Hstep Hbefore.
  destruct (_is_field_empty _ && Py.truthy _).
  - destruct (bool_decide (field = "Phone")).
    + destruct (format_phone_number _) as [v|] eqn:Hv; simpl in Hstep; [| discriminate].
      injection Hstep as <-. split.
      * exists v. by rewrite lookup_insert_eq.
      * intros other Hne. by rewrite lookup_insert_ne.
    + injection Hstep as <-. split.
      * eexists. by rewrite lookup_insert_eq.
      * intros other Hne. by rewrite lookup_insert_ne.
  - destruct (Py.truthy (Py.get existing_fields field)) eqn:Htruthy.
    + injection Hstep as <-. split.
      * rewrite lookup_insert_eq. symmetry. by apply get_truthy_lookup.
      * intros other Hne. by rewrite lookup_insert_ne.
    + injection Hstep as <-. split; [done | done].
Qed.

Lemma merge_loop_spec (fields : list string) :
  forall merged merged',
    NoDup fields ->
    for_each (merge_field new_contact existing_fields) fields merged = Ok merged' ->
    (forall field, field ∈ fields -> merged !! field = existing_fields !! field) ->
    forall field,
      (field ∈ fields -> merged_entry new_contact existing_fields field (merged' !! field))
      /\ (field ∉ fields -> merged' !! field = merged !! field).
Proof.
  induction fields as [| f fields IH]; intros merged merged' Hnodup Hloop Hbefore field.
  - injection Hloop as <-. split; [intros Hin; by apply elem_of_nil in Hin | done].
  - simpl in Hloop.
    destruct (merge_field new_contact existing_fields merged f) as [merged1|] eqn:Hstep;
      simpl in Hloop; [| discriminate].
    apply NoDup_cons in Hnodup as [Hnotin Hnodup].
    destruct (merge_field_spec _ _ _ Hstep) as [Hentry Hothers];
      [apply Hbefore, list_elem_of_here |].
    assert (Hbefore1 : forall g, g ∈ fields -> merged1 !! g = existing_fields !! g).
    { intros g Hg. rewrite Hothers by (intros ->; done).
      apply Hbefore. by apply list_elem_of_further. }
    destruct (IH merged1 merged' Hnodup Hloop Hbefore1 field) as [IHin IHout].
    split.
    + intros [-> | Hin]%elem_of_cons.
      * rewrite (IHout Hnotin). unfold merged_entry in *.
        destruct (takes_new _ _ f); done.
      * specialize (IHin Hin). unfold merged_entry in *.
        destruct (takes_new _ _ field); done.
    + intros Hnotin'. apply not_elem_of_cons in Hnotin' as [Hne Hnotin'].
      rewrite (IHout Hnotin'). by apply Hothers.
Qed.

Lemma merge_loop_returns (fields : list string) (phone : pyval) :
  format_phone_number (Py.get new_contact "Phone") = Ok phone ->
  forall merged, exists merged',
    for_each (merge_field new_contact existing_fields) fields merged = Ok merged'.
Proof.
  intros Hphone. induction fields as [| f fields IH]; intros merged; [by eexists |].
  simpl. assert (exists merged1, merge_field new_contact existing_fields merged f = Ok merged1)
    as [merged1 ->].
  { unfold merge_field. destruct (_ && _); [| destruct (Py.truthy _); by eexists].
    destruct (decide (f = "Phone")) as [-> | Hne].
    - rewrite bool_decide_true by done. rewrite Hphone. by eexists.
    - rewrite bool_decide_false by done. by eexists. }
  simpl. apply IH.
Qed.

End Merge.

Lemma merge_fields_nodup : NoDup merge_fields.
Proof. apply (bool_decide_unpack _). vm_compute. exact I. Qed.

Lemma merge_start_lookup (existing_fields : dict) (field : string) :
  field ∈ merge_fields ->
  (filter (fun kv : string * pyval => kv.1 ∉ excluded_fields) existing_fields
   ∪ ({[ "IDI" := VBool true; "Traced" := VBool true; "Entity Type" := VStr "Person" ]} : dict))
  !! field = existing_fields !! field.
Proof.
  intros Hin.
  assert (Hexcl : field ∉ excluded_fields).
  { unfold merge_fields in Hin.
    repeat (apply elem_of_cons in Hin as [-> | Hin];
            [apply (bool_decide_unpack _); vm_compute; exact I |]).
    by apply elem_of_nil in Hin. }
  assert (Hinit : ({[ "IDI" := VBool true; "Traced" := VBool true;
                      "Entity Type" := VStr "Person" ]} : dict) !! field = None).
  { unfold merge_fields in Hin.
    repeat (apply elem_of_cons in Hin as [-> | Hin]; [by vm_compute |]).
    by apply elem_of_nil in Hin. }
  rewrite lookup_union. rewrite Hinit.
  destruct (existing_fields !! field) as [v|] eqn:Hv.
  - rewrite (map_lookup_filter_Some_2 _ _ _ v); done.
  - rewrite map_lookup_filter_None_2; [done | by left].
Qed.

Lemma merge_contact_data_spec (new_contact : dict) (existing_contact : record) (merged : dict) :
  _merge_contact_data new_contact existing_contact = Ok merged ->
  forall field, field ∈ merge_fields ->
    if takes_new new_contact (rec_fields existing_contact) field then
      exists v, type_formatted field (Py.get new_contact field) = Ok v
                /\ merged !! field = Some v
    else merged !! field = rec_fields existing_contact !! field.
Proof.
  unfold _merge_contact_data. intros Hmerge field Hin.
  eapply merge_loop_spec in Hmerge as [Hentry _];
    [ | apply merge_fields_nodup | intros g Hg; by apply merge_start_lookup ].
  exact (Hentry Hin).
Qed.



(** C3 fails as stated: an existing [Deceased = True] is kept when the new
    data says [False]. *)
Lemma merge_keeps_existing_deceased :
  exists merged,
    _merge_contact_data {[ "Deceased" := VBool false; "Bankruptcy" := VBool false ]}
      {| rec_id := "rec1";
         rec_fields := {[ "Deceased" := VBool true; "Bankruptcy" := VBool true ]} |}
    = Ok merged
    /\ merged !! "Deceased" = Some (VBool true)
    /\ merged !! "Deceased"
       <> ({[ "Deceased" := VBool false; "Bankruptcy" := VBool false ]} : dict) !! "Deceased".
Proof. eexists. split; [vm_compute; reflexivity |]. split; [reflexivity | discriminate]. Qed.

(** C3, amended.  Deceased and Bankruptcy follow the rule of every other
    merged field: the merged value is the new one when the existing value is
    empty (missing, none or false) and the new value is true, and the
    existing one otherwise; so a new [True] fills an empty field, and an
    existing [True] is never replaced. *)
Theorem merge_booleans_follow_the_merge_rule
    (new_contact : dict) (existing_contact : record) (merged : dict) (field : string) :
  _merge_contact_data new_contact existing_contact = Ok merged ->
  field ∈ ["Deceased"; "Bankruptcy"] ->
  merged !! field
  = (if _is_field_empty (Py.get (rec_fields existing_contact) field)
        && Py.truthy (Py.get new_contact field)
     then Some (clean_and_format_text (Py.get new_contact field) "general")
     else rec_fields existing_contact !! field)
  /\ (Py.get new_contact field = VBool true ->
      _is_field_empty (Py.get (rec_fields existing_contact) field) = true ->
      merged !! field = Some (VBool true))
  /\ (rec_fields existing_contact !! field = Some (VBool true) ->
      merged !! field = Some (VBool true)).
Proof.
  intros Hmerge Hin.
  assert (Hmf : field ∈ merge_fields).
  { apply elem_of_cons in Hin as [-> | Hin]; [apply (bool_decide_unpack _); by vm_compute |].
    apply elem_of_cons in Hin as [-> | Hin]; [apply (bool_decide_unpack _); by vm_compute |].
    by apply elem_of_nil in Hin. }
  pose proof (merge_contact_data_spec _ _ _ Hmerge field Hmf) as Hrule.
  assert (Hty : type_formatted field (Py.get new_contact field)
                = Ok (clean_and_format_text (Py.get new_contact field) "general")).
  { apply elem_of_cons in Hin as [-> | Hin]; [reflexivity |].
    apply elem_of_cons in Hin as [-> | Hin]; [reflexivity |].
    by apply elem_of_nil in Hin. }
  unfold takes_new in Hrule.
  assert (Heq : merged !! field
    = (if _is_field_empty (Py.get (rec_fields existing_contact) field)
          && Py.truthy (Py.get new_contact field)
       then Some (clean_and_format_text (Py.get new_contact field) "general")
       else rec_fields existing_contact !! field)).
  { destruct (_ && _); [| done].
    destruct Hrule as (v & Hv & ->). rewrite Hty in Hv. by injection Hv as <-. }
  split; [exact Heq |]. split.
  - intros Hnew Hempty. rewrite Heq, Hnew, Hempty. reflexivity.
  - intros Hex. rewrite Heq. unfold Py.get at 1. rewrite Hex. reflexivity.
Qed.

Lemma merge_booleans_follow_the_merge_rule_witness :
  ({[ "IDI" := VBool true; "Traced" := VBool true; "Entity Type" := VStr "Person";
      "Deceased" := VBool true ]} : dict) !! "Deceased" = Some (VBool true).
Proof.
  apply (merge_booleans_follow_the_merge_rule
           {[ "Deceased" := VBool false ]}
           {| rec_id := "rec1"; rec_fields := {[ "Deceased" := VBool true ]} |}
           _ "Deceased").
  - vm_compute. reflexivity.
  - apply list_elem_of_here.
  - reflexivity.
Defined.

(** ** Identity matcher *)

Lemma age_gap_typed (threshold : Z) (age existing_age : pyval) :
  age_typed age = true -> age_typed existing_age = true ->
  age_gap_exceeds threshold age existing_age
  = Ok (age_incompatible threshold age existing_age).
Proof.
  unfold age_gap_exceeds, age_incompatible, present_age.
  destruct age as [| | a | | |], existing_age as [| | e | | |]; try discriminate;
    intros _ _; simpl; try reflexivity.
  - by destruct (a =? 0).
  - destruct (a =? 0), (e =? 0); reflexivity.
Qed.

Lemma is_same_person_typed (new_contact : dict) (existing_contact : record) :
  age_typed (Py.get new_contact "Age") = true ->
  age_typed (Py.get (rec_fields existing_contact) "Age") = true ->
  _is_same_person new_contact existing_contact
  = Ok (negb (ruled_out new_contact existing_contact)).
Proof.
  intros Hnew Hex.
  pose proof (age_gap_typed 5 _ _ Hnew Hex) as Hgap.
  unfold _is_same_person, ruled_out. unfold age_gap_exceeds in Hgap.
  destruct (Py.truthy _ && Py.truthy _).
  - destruct (Py.abs_diff _ _); simpl in *; [| discriminate].
    injection Hgap as <-. reflexivity.
  - by injection Hgap as <-.
Qed.

Lemma first_same_person_typed (contact_data : dict) (matches : list record) :
  age_typed (Py.get contact_data "Age") = true ->
  Forall (fun r => age_typed (Py.get (rec_fields r) "Age") = true) matches ->
  first_same_person contact_data matches
  = Ok (List.find (fun r => negb (ruled_out contact_data r)) matches).
Proof.
  intros Hnew. induction 1 as [| r matches Hr _ IH]; [reflexivity |].
  simpl. rewrite is_same_person_typed by done. simpl.
  destruct (negb (ruled_out contact_data r)); [reflexivity | exact IH].
Qed.

Lemma find_existing_contact_searches (repo : repository) (contact_data : dict)
    (first_name last_name : string) (log : list request) :
  name_part contact_data "First Name" = Ok first_name ->
  name_part contact_data "Last Name" = Ok last_name ->
  first_name <> "" -> last_name <> "" ->
  run (find_existing_contact repo contact_data) log
  = (first_same_person contact_data
       (default [] (search_response repo log first_name last_name)),
     log ++ [Search first_name last_name]).
Proof.
  unfold name_part, find_existing_contact. intros -> -> Hf Hl. simpl.
  rewrite !bool_decide_false by done. simpl.
  destruct (search_response repo log first_name last_name); reflexivity.
Qed.

Lemma find_existing_contact_nameless (repo : repository) (contact_data : dict)
    (first_name last_name : string) (log : list request) :
  name_part contact_data "First Name" = Ok first_name ->
  name_part contact_data "Last Name" = Ok last_name ->
  first_name = "" \/ last_name = "" ->
  run (find_existing_contact repo contact_data) log = (Ok None, log).
Proof.
  unfold name_part, find_existing_contact. intros -> -> Hempty. simpl.
  destruct Hempty as [-> | ->]; simpl; [reflexivity |].
  by rewrite orb_true_r.
Qed.



(** ** Deduplication *)

Lemma for_each_app {A S : Type} (f : S -> A -> result S) (l1 l2 : list A) (acc : S) :
  for_each f (l1 ++ l2) acc = (do acc' <- for_each f l1 acc ;; for_each f l2 acc').
Proof.
  revert acc. induction l1 as [| x l1 IH]; intros acc; [reflexivity |].
  simpl. destruct (f acc x); simpl; [apply IH | reflexivity].
Qed.

Lemma is_ok_inv {A : Type} (r : result A) : is_ok r = true -> exists a, r = Ok a.
Proof. destruct r; [by eexists | discriminate]. Qed.

Lemma dict_eqb_refl (c : dict) : Py.dict_eqb c c = true.
Proof. unfold Py.dict_eqb, Py.eqb. by apply bool_decide_eq_true. Qed.

(** Two dicts that are equal for Python have the same entries up to [canon]. *)
Lemma dict_eqb_get (a b : dict) (k : string) :
  Py.dict_eqb a b = true -> Py.canon (Py.get a k) = Py.canon (Py.get b k).
Proof.
  unfold Py.dict_eqb, Py.eqb. intros Heq%bool_decide_eq_true.
  simpl in Heq. injection Heq as Heq.
  apply (f_equal (fun m : dict => m !! k)) in Heq.
  rewrite !lookup_fmap in Heq. unfold Py.get.
  destruct (a !! k), (b !! k); simpl in *; congruence.
Qed.

Lemma canon_name_part (v w : pyval) :
  Py.canon v = Py.canon w ->
  Py.strip (Py.or_ v (VStr "")) = Py.strip (Py.or_ w (VStr "")).
Proof.
  unfold Py.or_.
  destruct v as [| [] | x | s | l | d], w as [| [] | y | t | l' | d']; simpl;
    intros Heq; try discriminate; try reflexivity;
    try (injection Heq as <-; reflexivity);
    try (injection Heq as ->; reflexivity).
  - destruct l, l'; try discriminate; reflexivity.
  - injection Heq as Heq.
    destruct (decide (d = ∅)) as [-> | Hd], (decide (d' = ∅)) as [-> | Hd'];
      rewrite ?bool_decide_true, ?bool_decide_false by done; try reflexivity.
    + rewrite fmap_empty in Heq. symmetry in Heq. by apply fmap_empty_inv in Heq.
    + rewrite fmap_empty in Heq. by apply fmap_empty_inv in Heq.
Qed.

Lemma dict_eqb_key_of (a b : dict) :
  Py.dict_eqb a b = true -> key_of a = key_of b.
Proof.
  intros Heq. unfold key_of, name_part.
  rewrite (canon_name_part _ _ (dict_eqb_get a b "First Name" Heq)).
  by rewrite (canon_name_part _ _ (dict_eqb_get a b "Last Name" Heq)).
Qed.

Lemma dedup_typed_inv (c : dict) :
  dedup_typed c = true ->
  exists first_name last_name middle_name suffix label,
    name_part c "First Name" = Ok first_name
    /\ name_part c "Last Name" = Ok last_name
    /\ name_part c "Middle Name" = Ok middle_name
    /\ name_part c "Suffix" = Ok suffix
    /\ age_typed (Py.get c "Age") = true
    /\ relation_to_owner c = Ok label.
Proof.
  unfold dedup_typed. rewrite !andb_true_iff.
  intros [[[[[H1 H2] H3] H4] H5] H6].
  apply is_ok_inv in H1 as [f ->], H2 as [l ->], H3 as [m ->], H4 as [s ->], H6 as [r ->].
  by exists f, l, m, s, r.
Qed.

(** One turn of the loop on a well-typed contact: the four ways it can end. *)
Lemma dedup_step_shape (st : dedup_state) (entry : dict * Z) (k : string) :
  seen_ok st -> dedup_typed entry.1 = true -> key_of entry.1 = Ok k ->
  exists st', dedup_step st entry = Ok st'
    /\ ((seen_contacts st !! k = None
         /\ st' = {| seen_contacts := <[k := entry]> (seen_contacts st);
                     deduplicated := deduplicated st ++ [entry] |})
        \/ exists existing d,
             seen_contacts st !! k = Some (existing, d)
             /\ (st' = st
                 \/ st' = {| seen_contacts := seen_contacts st;
                             deduplicated := deduplicated st ++ [entry] |}
                 \/ st' = {| seen_contacts := <[k := entry]> (seen_contacts st);
                             deduplicated :=
                               replace_first existing entry (deduplicated st) |})).
Proof.
  intros Hseen Htyped Hkey.
  destruct (dedup_typed_inv _ Htyped) as (f & l & m & s & r & Hf & Hl & Hm & Hs & Hage & Hr).
  unfold key_of in Hkey. rewrite Hf, Hl in Hkey. simpl in Hkey. injection Hkey as Hkey.
  unfold dedup_step. rewrite Hf, Hl, Hm, Hs. simpl. rewrite Hkey.
  destruct (seen_contacts st !! k) as [[existing d] |] eqn:Hlookup.
  - destruct (Hseen _ _ _ Hlookup) as [_ Hex].
    destruct (dedup_typed_inv _ Hex)
      as (f' & l' & m' & s' & r' & _ & _ & Hm' & Hs' & Hage' & Hr').
    rewrite Hm', Hs'. simpl.
    destruct (_ && _ && _).
    + eexists. split; [reflexivity |]. right. exists existing, d. split; [done |].
      right. by left.
    + rewrite (age_gap_typed 2 _ _ Hage Hage'). simpl.
      destruct (age_incompatible 2 _ _).
      * eexists. split; [reflexivity |]. right. exists existing, d. split; [done |].
        right. by left.
      * rewrite Hr, Hr'. simpl.
        repeat match goal with
               | |- context [if ?b then _ else _] => destruct b
               end;
          (eexists; split; [reflexivity |]; right; exists existing, d; split; [done |]);
          (by left) || (right; by left) || (right; by right).
  - eexists. split; [reflexivity |]. by left.
Qed.

Lemma has_key_other (k k' : string) (entry : dict * Z) :
  key_of entry.1 = Ok k' -> k' <> k -> has_key k entry = false.
Proof.
  intros Hkey Hne. unfold has_key. rewrite Hkey.
  apply bool_decide_eq_false. congruence.
Qed.

Lemma filter_replace_first_other (k k' : string) (existing : dict) (entry : dict * Z)
    (l : list (dict * Z)) :
  key_of existing = Ok k' -> key_of entry.1 = Ok k' -> k' <> k ->
  List.filter (has_key k) (replace_first existing entry l) = List.filter (has_key k) l.
Proof.
  intros Hex Hentry Hne. induction l as [| stored l IH]; [reflexivity |].
  simpl. destruct (Py.dict_eqb stored.1 existing) eqn:Heq.
  - simpl. rewrite (has_key_other k k' entry Hentry Hne).
    rewrite (has_key_other k k' stored); [done | | done].
    by rewrite (dict_eqb_key_of _ _ Heq).
  - simpl. by rewrite IH.
Qed.

Lemma seen_ok_insert (st : dedup_state) (entry : dict * Z) (k : string)
    (l : list (dict * Z)) :
  seen_ok st -> dedup_typed entry.1 = true -> key_of entry.1 = Ok k ->
  seen_ok {| seen_contacts := <[k := entry]> (seen_contacts st); deduplicated := l |}.
Proof.
  intros Hseen Htyped Hkey k0 c d. simpl.
  destruct (decide (k = k0)) as [<- | Hne].
  - rewrite lookup_insert_eq. destruct entry as [c' d']. by intros [= <- <-].
  - rewrite lookup_insert_ne by done. apply Hseen.
Qed.

(** A contact filed under another key leaves the records of key [k] alone. *)
Lemma dedup_step_other (k k' : string) (st : dedup_state) (entry : dict * Z) :
  seen_ok st -> dedup_typed entry.1 = true -> key_of entry.1 = Ok k' -> k' <> k ->
  exists st', dedup_step st entry = Ok st'
    /\ seen_ok st'
    /\ seen_contacts st' !! k = seen_contacts st !! k
    /\ List.filter (has_key k) (deduplicated st')
       = List.filter (has_key k) (deduplicated st).
Proof.
  intros Hseen Htyped Hkey Hne.
  destruct (dedup_step_shape st entry k' Hseen Htyped Hkey) as (st' & Hstep & Hshape).
  exists st'. split; [exact Hstep |].
  assert (Happ : List.filter (has_key k) (deduplicated st ++ [entry])
                 = List.filter (has_key k) (deduplicated st)).
  { rewrite List.filter_app. simpl. rewrite (has_key_other k k' entry Hkey Hne).
    by rewrite app_nil_r. }
  destruct Hshape as [[Hnone ->] | (existing & d & Hsome & [-> | [-> | ->]])]; simpl.
  - split; [by apply seen_ok_insert |]. by rewrite lookup_insert_ne.
  - done.
  - done.
  - split; [by apply seen_ok_insert |]. rewrite lookup_insert_ne by done.
    split; [done |]. apply (filter_replace_first_other k k'); try done.
    by destruct (Hseen _ _ _ Hsome).
Qed.

Lemma dedup_loop_other (k : string) (l : list (dict * Z)) :
  Forall (fun e => dedup_typed e.1 = true) l ->
  Forall (fun e => has_key k e = false) l ->
  forall st, seen_ok st ->
    exists st', for_each dedup_step l st = Ok st'
      /\ seen_ok st'
      /\ seen_contacts st' !! k = seen_contacts st !! k
      /\ List.filter (has_key k) (deduplicated st')
         = List.filter (has_key k) (deduplicated st).
Proof.
  induction l as [| entry l IH]; intros Htyped Hkeys st Hseen.
  - exists st. split; [reflexivity |]. split; [exact Hseen |]. split; reflexivity.
  - apply Forall_cons in Htyped as [Htyped1 Htyped], Hkeys as [Hkey1 Hkeys].
    destruct (dedup_typed_inv _ Htyped1) as (f & l0 & _ & _ & _ & Hf & Hl & _).
    assert (Hk : key_of entry.1 = Ok (name_key f l0))
      by (unfold key_of; by rewrite Hf, Hl).
    assert (Hne : name_key f l0 <> k).
    { intros <-. unfold has_key in Hkey1. rewrite Hk in Hkey1.
      by rewrite bool_decide_true in Hkey1. }
    destruct (dedup_step_other k _ st entry Hseen Htyped1 Hk Hne)
      as (st1 & Hstep & Hseen1 & Hlook1 & Hfilter1).
    destruct (IH Htyped Hkeys st1 Hseen1) as (st' & Hloop & Hseen' & Hlook' & Hfilter').
    exists st'. simpl. rewrite Hstep. simpl.
    split; [exact Hloop |]. split; [exact Hseen' |].
    split; congruence.
Qed.

Lemma dedup_step_first (st : dedup_state) (entry : dict * Z) (k : string) :
  seen_ok st -> dedup_typed entry.1 = true -> key_of entry.1 = Ok k ->
  seen_contacts st !! k = None ->
  dedup_step st entry
  = Ok {| seen_contacts := <[k := entry]> (seen_contacts st);
          deduplicated := deduplicated st ++ [entry] |}.
Proof.
  intros Hseen Htyped Hkey Hnone.
  destruct (dedup_step_shape st entry k Hseen Htyped Hkey) as (st' & -> & Hshape).
  destruct Hshape as [[_ ->] | (existing & d & Hsome & _)]; [reflexivity | congruence].
Qed.

(** The turn of the loop for a contact that is judged the same person as the
    record kept under its key. *)
Lemma dedup_step_same_person (st : dedup_state) (first second : dict * Z) (k : string)
    (first_suffix second_suffix first_label second_label : string) :
  seen_contacts st !! k = Some first ->
  dedup_typed first.1 = true -> dedup_typed second.1 = true ->
  key_of second.1 = Ok k ->
  name_part first.1 "Suffix" = Ok first_suffix ->
  name_part second.1 "Suffix" = Ok second_suffix ->
  first_suffix = "" \/ second_suffix = ""
  \/ PyStr.lower second_suffix = PyStr.lower first_suffix ->
  age_incompatible 2 (Py.get second.1 "Age") (Py.get first.1 "Age") = false ->
  relation_to_owner first.1 = Ok first_label ->
  relation_to_owner second.1 = Ok second_label ->
  dedup_step st second
  = Ok (if replaces first.1 second.1 first_label second_label
        then {| seen_contacts := <[k := second]> (seen_contacts st);
                deduplicated := replace_first first.1 second (deduplicated st) |}
        else st).
Proof.
  intros Hlookup Ht1 Ht2 Hkey Hs1 Hs2 Hsuffix Hage Hr1 Hr2.
  destruct (dedup_typed_inv _ Ht2) as (f & l & m & s & r & Hf & Hl & Hm & Hs & Hage2 & Hr).
  destruct (dedup_typed_inv _ Ht1) as (f' & l' & m' & s' & r' & _ & _ & Hm' & Hs' & Hage1 & Hr').
  unfold key_of in Hkey. rewrite Hf, Hl in Hkey. simpl in Hkey. injection Hkey as Hkey.
  unfold dedup_step. rewrite Hf, Hl, Hm, Hs2. simpl. rewrite Hkey, Hlookup.
  destruct first as [c1 d1]. simpl in *. rewrite Hm', Hs1. simpl.
  assert (Hveto : negb (bool_decide (second_suffix = ""))
                  && negb (bool_decide (first_suffix = ""))
                  && negb (bool_decide (PyStr.lower second_suffix = PyStr.lower first_suffix))
                  = false).
  { destruct Hsuffix as [-> | [-> | ->]].
    - rewrite (bool_decide_true ("" = "")) by done. simpl. by rewrite andb_false_r.
    - by rewrite (bool_decide_true ("" = "")) by done.
    - rewrite (bool_decide_true (PyStr.lower first_suffix = _)) by done.
      simpl. by rewrite andb_false_r. }
  rewrite Hveto. rewrite (age_gap_typed 2 _ _ Hage2 Hage1). rewrite Hage. simpl.
  rewrite Hr2, Hr1. simpl. unfold replaces.
  destruct (bool_decide (PyStr.lower second_label = "owner")),
           (bool_decide (PyStr.lower first_label = "owner")); simpl; try reflexivity.
  - by destruct (count_fields c1 <? count_fields second.1).
  - by destruct (count_fields c1 <? count_fields second.1).
Qed.

Lemma filter_replace_first_same (k : string) (first second : dict * Z)
    (l : list (dict * Z)) :
  key_of first.1 = Ok k -> key_of second.1 = Ok k ->
  List.filter (has_key k) l = [first] ->
  List.filter (has_key k) (replace_first first.1 second l) = [second].
Proof.
  intros Hk1 Hk2. assert (Hhas2 : has_key k second = true)
    by (unfold has_key; by rewrite Hk2, bool_decide_true).
  induction l as [| stored l IH]; [discriminate |].
  simpl. destruct (Py.dict_eqb stored.1 first.1) eqn:Heq.
  - assert (Hhas : has_key k stored = true).
    { unfold has_key. rewrite (dict_eqb_key_of _ _ Heq), Hk1. by rewrite bool_decide_true. }
    rewrite Hhas. intros [= _ Hrest]. simpl. by rewrite Hhas2, Hrest.
  - destruct (has_key k stored) eqn:Hhas.
    + intros [= -> _]. by rewrite dict_eqb_refl in Heq.
    + intros Hrest. simpl. rewrite Hhas. by apply IH.
Qed.

Lemma age_compatible_within (a1 a2 : Z) :
  Z.abs (a1 - a2) <= 2 -> age_incompatible 2 (VInt a1) (VInt a2) = false.
Proof.
  intros Hle. unfold age_incompatible, present_age.
  destruct (a1 =? 0), (a2 =? 0); try reflexivity. apply Z.ltb_ge. lia.
Qed.

Lemma seen_ok_start : seen_ok {| seen_contacts := ∅; deduplicated := [] |}.
Proof. intros k c d. simpl. by rewrite lookup_empty. Qed.

Section Pair.

Variables (x y : dict * Z) (k : string) (x_suffix y_suffix x_label y_label : string).

Hypothesis x_typed : dedup_typed x.1 = true.
Hypothesis y_typed : dedup_typed y.1 = true.
Hypothesis x_key : key_of x.1 = Ok k.
Hypothesis y_key : key_of y.1 = Ok k.
Hypothesis x_has_suffix : name_part x.1 "Suffix" = Ok x_suffix.
Hypothesis y_has_suffix : name_part y.1 "Suffix" = Ok y_suffix.
Hypothesis suffixes_agree :
  x_suffix = "" \/ y_suffix = "" \/ PyStr.lower y_suffix = PyStr.lower x_suffix.
Hypothesis ages_agree :
  age_incompatible 2 (Py.get y.1 "Age") (Py.get x.1 "Age") = false.
Hypothesis x_has_label : relation_to_owner x.1 = Ok x_label.
Hypothesis y_has_label : relation_to_owner y.1 = Ok y_label.

(** Two records of one person, alone in the input. *)
Lemma dedup_pair :
  deduplicate_contacts [x; y]
  = Ok [if replaces x.1 y.1 x_label y_label then y else x].
Proof.
  unfold deduplicate_contacts. simpl.
  rewrite (dedup_step_first _ x k seen_ok_start x_typed x_key) by apply lookup_empty.
  simpl.
  rewrite (dedup_step_same_person _ x y k x_suffix y_suffix x_label y_label);
    try done; [| simpl; by rewrite lookup_insert_eq].
  destruct (replaces _ _ _ _); simpl; [| reflexivity].
  by rewrite dict_eqb_refl.
Qed.

(** Two records of one person among contacts of other names. *)
Lemma dedup_pair_among_others (before between after : list (dict * Z)) :
  Forall (fun e => dedup_typed e.1 = true) (before ++ between ++ after) ->
  Forall (fun e => has_key k e = false) (before ++ between ++ after) ->
  exists out,
    deduplicate_contacts (before ++ x :: between ++ y :: after) = Ok out
    /\ List.filter (has_key k) out = [if replaces x.1 y.1 x_label y_label then y else x].
Proof.
  intros Htyped Hkeys.
  apply Forall_app in Htyped as [Htyped_b Htyped], Hkeys as [Hkeys_b Hkeys].
  apply Forall_app in Htyped as [Htyped_m Htyped_a], Hkeys as [Hkeys_m Hkeys_a].
  assert (Hx : has_key k x = true) by (unfold has_key; by rewrite x_key, bool_decide_true).
  assert (Hy : has_key k y = true) by (unfold has_key; by rewrite y_key, bool_decide_true).
  unfold deduplicate_contacts.
  destruct (dedup_loop_other k before Htyped_b Hkeys_b _ seen_ok_start)
    as (st1 & Hloop1 & Hseen1 & Hlook1 & Hfilter1).
  simpl in Hlook1, Hfilter1. rewrite lookup_empty in Hlook1.
  rewrite for_each_app, Hloop1. simpl.
  rewrite (dedup_step_first st1 x k Hseen1 x_typed x_key Hlook1). simpl.
  set (st2 := {| seen_contacts := <[k := x]> (seen_contacts st1);
                 deduplicated := deduplicated st1 ++ [x] |}).
  assert (Hseen2 : seen_ok st2) by by apply seen_ok_insert.
  destruct (dedup_loop_other k between Htyped_m Hkeys_m st2 Hseen2)
    as (st3 & Hloop3 & Hseen3 & Hlook3 & Hfilter3).
  simpl in Hlook3, Hfilter3. rewrite lookup_insert_eq in Hlook3.
  rewrite List.filter_app, Hfilter1 in Hfilter3. simpl in Hfilter3. rewrite Hx in Hfilter3.
  rewrite for_each_app, Hloop3. simpl.
  rewrite (dedup_step_same_person st3 x y k x_suffix y_suffix x_label y_label); try done.
  simpl.
  set (st4 := if replaces x.1 y.1 x_label y_label
              then {| seen_contacts := <[k := y]> (seen_contacts st3);
                      deduplicated := replace_first x.1 y (deduplicated st3) |}
              else st3).
  assert (Hst4 : seen_ok st4
                 /\ List.filter (has_key k) (deduplicated st4)
                    = [if replaces x.1 y.1 x_label y_label then y else x]).
  { subst st4. destruct (replaces _ _ _ _).
    - split; [by apply seen_ok_insert |]. simpl.
      by apply (filter_replace_first_same k x y).
    - done. }
  destruct Hst4 as [Hseen4 Hfilter4].
  destruct (dedup_loop_other k after Htyped_a Hkeys_a st4 Hseen4)
    as (st5 & Hloop5 & _ & _ & Hfilter5).
  rewrite Hloop5. simpl. exists (deduplicated st5). split; [reflexivity |].
  by rewrite Hfilter5.
Qed.

End Pair.







(** ** Network discovery *)

Section Discovery.

Variables (contact_by_id : gmap key dict) (max_depth : Z).

Lemma visit_relations_mono
    (visit visit' : dict -> network -> option (result network))
    (relations : list pyval) :
  (forall c net r, visit c net = Some r -> visit' c net = Some r) ->
  forall net r,
    visit_relations contact_by_id visit relations net = Some r ->
    visit_relations contact_by_id visit' relations net = Some r.
Proof.
  intros Hmono. induction relations as [| relation_id rest IH]; intros net r; [done |].
  simpl. destruct (Py.hashable relation_id) as [k |]; [| done].
  destruct (contact_by_id !! k) as [related |]; [| apply IH].
  destruct (visit related net) as [[net' |] |] eqn:Hvisit; [| | discriminate].
  - rewrite (Hmono _ _ _ Hvisit). apply IH.
  - by rewrite (Hmono _ _ _ Hvisit).
Qed.

Lemma visit_relations_returns
    (visit : dict -> network -> option (result network)) (relations : list pyval) :
  (forall c net, exists r, visit c net = Some r) ->
  forall net, exists r, visit_relations contact_by_id visit relations net = Some r.
Proof.
  intros Htotal. induction relations as [| relation_id rest IH]; intros net; [by eexists |].
  simpl. destruct (Py.hashable relation_id) as [k |]; [| by eexists].
  destruct (contact_by_id !! k) as [related |]; [| apply IH].
  destruct (Htotal related net) as [[net' |] ->]; [apply IH | by eexists].
Qed.

(** More fuel does not change what a call returns. *)
Lemma add_contact_and_relations_mono (fuel : nat) :
  forall contact depth net r,
    add_contact_and_relations fuel contact_by_id contact depth max_depth net = Some r ->
    add_contact_and_relations (S fuel) contact_by_id contact depth max_depth net = Some r.
Proof.
  induction fuel as [| fuel IH]; intros contact depth net r; [discriminate |].
  intros Hrun. simpl in Hrun. simpl.
  destruct (bind (Py.getitem contact "ID") _) as [contact_id |]; [| done].
  destruct (_ || _); [done |].
  destruct (Py.truthy _); [| done].
  destruct (bind (Py.len _) _) as [ids |]; [| done].
  revert Hrun. apply visit_relations_mono. intros c net' r'. apply IH.
Qed.

Lemma add_contact_and_relations_mono_le (fuel fuel' : nat) :
  (fuel <= fuel')%nat ->
  forall contact depth net r,
    add_contact_and_relations fuel contact_by_id contact depth max_depth net = Some r ->
    add_contact_and_relations fuel' contact_by_id contact depth max_depth net = Some r.
Proof.
  induction 1 as [| fuel' _ IH]; intros contact depth net r Hrun; [done |].
  by apply add_contact_and_relations_mono, IH.
Qed.

(** The depth bound alone caps the recursion: a call at [depth] returns with
    fuel above [max_depth + 1 - depth]. *)
Lemma add_contact_and_relations_returns (fuel : nat) :
  forall contact depth net,
    (Z.to_nat (max_depth + 1 - depth) < fuel)%nat ->
    exists r,
      add_contact_and_relations fuel contact_by_id contact depth max_depth net = Some r.
Proof.
  induction fuel as [| fuel IH]; intros contact depth net Hfuel; [lia |].
  simpl.
  destruct (bind (Py.getitem contact "ID") _) as [contact_id |]; [| by eexists].
  destruct (max_depth <? depth) eqn:Hdepth.
  { rewrite orb_true_r. by eexists. }
  rewrite orb_false_r. destruct (bool_decide _); [by eexists |].
  destruct (Py.truthy _); [| by eexists].
  destruct (bind (Py.len _) _) as [ids |]; [| by eexists].
  apply visit_relations_returns. intros c net'. apply IH.
  apply Z.ltb_ge in Hdepth. lia.
Qed.

Lemma discover_from_mono (fuel fuel' : nat) (initial_contacts : list dict) :
  (fuel <= fuel')%nat ->
  forall net r,
    discover_from fuel contact_by_id initial_contacts max_depth net = Some r ->
    discover_from fuel' contact_by_id initial_contacts max_depth net = Some r.
Proof.
  intros Hle. induction initial_contacts as [| contact rest IH]; intros net r; [done |].
  simpl.
  destruct (add_contact_and_relations fuel _ _ _ _ _) as [[net' |] |] eqn:Hrun;
    [| | discriminate].
  - rewrite (add_contact_and_relations_mono_le _ _ Hle _ _ _ _ Hrun). apply IH.
  - by rewrite (add_contact_and_relations_mono_le _ _ Hle _ _ _ _ Hrun).
Qed.

Lemma discover_from_returns (fuel : nat) (initial_contacts : list dict) :
  (Z.to_nat (max_depth + 1) < fuel)%nat ->
  forall net, exists r,
    discover_from fuel contact_by_id initial_contacts max_depth net = Some r.
Proof.
  intros Hfuel. induction initial_contacts as [| contact rest IH]; intros net;
    [by eexists |].
  simpl.
  destruct (add_contact_and_relations_returns fuel contact 0 net) as [[net' |] ->];
    [by rewrite Z.sub_0_r | apply IH | by eexists].
Qed.

End Discovery.

(** C9.  For every contact population, seed list and depth bound, the
    traversal terminates: with a call stack deeper than the bound allows to
    be used, network discovery returns (a network or an exception), and
    that outcome does not depend on the stack that remains.  No assumption
    is made on the relations: they may be cyclic, mutual or
    self-referencing. *)
Theorem network_discovery_terminates
    (contact_by_id : gmap key dict) (initial_contacts : list dict) (max_depth : Z) :
  exists (fuel : nat) (outcome : result (list (dict * Z))),
    forall fuel', (fuel <= fuel')%nat ->
      discover_network fuel' contact_by_id initial_contacts max_depth = Some outcome.
Proof.
  set (fuel := S (Z.to_nat (max_depth + 1))).
  destruct (discover_from_returns contact_by_id max_depth fuel initial_contacts
              ltac:(subst fuel; lia)
              {| processed_ids := ∅; contacts_to_process := [] |}) as [r Hr].
  exists fuel, (match r with Ok net => Ok (contacts_to_process net) | Raise e => Raise e end).
  intros fuel' Hle. unfold discover_network.
  rewrite (discover_from_mono contact_by_id max_depth fuel fuel' initial_contacts Hle _ _ Hr).
  by destruct r.
Qed.

Lemma network_discovery_terminates_witness :
  exists (fuel : nat) (outcome : result (list (dict * Z))),
    discover_network fuel chain_by_id [contact_self; contact_a] 2 = Some outcome.
Proof.
  destruct (network_discovery_terminates chain_by_id [contact_self; contact_a] 2)
    as (fuel & outcome & Hrun).
  exists fuel, outcome. apply Hrun. lia.
Defined.

Example discovery_with_cycles :
  index_contacts [contact_a; contact_b; contact_c; contact_self] = Ok chain_by_id
  /\ discover_network 4 chain_by_id [contact_self; contact_a] 2
     = Some (Ok [(contact_self, 0); (contact_a, 0); (contact_b, 1); (contact_c, 2)]).
Proof. split; vm_compute; reflexivity. Qed.

(** C8.  Seed [A], where A lists B, B lists A and C, C lists B, and the
    maximum depth is 1: the network is exactly [(A, 0); (B, 1)].  B, found
    at the depth bound, is in it; C, which only B leads to, is not; A, met
    again from B, is not queued a second time. *)
Theorem network_of_depth_one
    (A B C : dict) (a b c : Z) (fuel : nat) :
  A !! "ID" = Some (VInt a) -> B !! "ID" = Some (VInt b) -> C !! "ID" = Some (VInt c) ->
  a <> b -> a <> c -> b <> c ->
  A !! "Relations" = Some (VList [VInt b]) ->
  B !! "Relations" = Some (VList [VInt a; VInt c]) ->
  C !! "Relations" = Some (VList [VInt b]) ->
  (3 <= fuel)%nat ->
  index_contacts [A; B; C] = Ok {[ Py.KInt a := A; Py.KInt b := B; Py.KInt c := C ]}
  /\ discover_network fuel {[ Py.KInt a := A; Py.KInt b := B; Py.KInt c := C ]} [A] 1
     = Some (Ok [(A, 0); (B, 1)]).
Proof.
  intros HA HB HC Hab Hac Hbc HrA HrB HrC Hfuel.
  assert (Hkab : Py.KInt a <> Py.KInt b) by congruence.
  assert (Hkac : Py.KInt a <> Py.KInt c) by congruence.
  assert (Hkbc : Py.KInt b <> Py.KInt c) by congruence.
  split.
  - unfold index_contacts, Py.getitem. simpl. rewrite HA. simpl. rewrite HB. simpl.
    rewrite HC. simpl. f_equal. apply map_eq. intros k.
    destruct (decide (k = Py.KInt a)) as [-> | Hka];
      [| destruct (decide (k = Py.KInt b)) as [-> | Hkb];
         [| destruct (decide (k = Py.KInt c)) as [-> | Hkc]]];
      rewrite ?lookup_insert_eq, ?lookup_insert_ne, ?lookup_insert_eq,
        ?lookup_insert_ne, ?lookup_insert_eq, ?lookup_insert_ne by done; try done.
    + by rewrite lookup_singleton_eq.
    + by rewrite lookup_empty, lookup_singleton_ne.
  - assert (Hla : ({[ Py.KInt a := A; Py.KInt b := B; Py.KInt c := C ]} : gmap key dict)
                  !! Py.KInt a = Some A) by apply lookup_insert_eq.
    assert (Hlb : ({[ Py.KInt a := A; Py.KInt b := B; Py.KInt c := C ]} : gmap key dict)
                  !! Py.KInt b = Some B)
      by (rewrite lookup_insert_ne by done; apply lookup_insert_eq).
    assert (Hlc : ({[ Py.KInt a := A; Py.KInt b := B; Py.KInt c := C ]} : gmap key dict)
                  !! Py.KInt c = Some C)
      by (rewrite !lookup_insert_ne by done; apply lookup_singleton_eq).
    generalize dependent ({[ Py.KInt a := A; Py.KInt b := B; Py.KInt c := C ]}
                          : gmap key dict).
    intros by_id Hla Hlb Hlc.
    destruct fuel as [| [| [| fuel]]]; try lia.
    unfold discover_network, discover_from.
    simpl. unfold Py.getitem, Py.get_default. rewrite HA, HrA. simpl.
    rewrite bool_decide_false by set_solver. simpl.
    rewrite Hlb, HB, HrB. simpl.
    rewrite bool_decide_false by set_solver. simpl.
    rewrite Hla, HA. simpl.
    rewrite bool_decide_true by set_solver. simpl.
    rewrite Hlc, HC. simpl.
    rewrite bool_decide_false by set_solver. simpl.
    reflexivity.
Qed.

Lemma network_of_depth_one_witness :
  discover_network 3 {[ Py.KInt 1 := contact_a; Py.KInt 2 := contact_b; Py.KInt 3 := contact_c ]}
    [contact_a] 1
  = Some (Ok [(contact_a, 0); (contact_b, 1)]).
Proof.
  apply (network_of_depth_one contact_a contact_b contact_c 1 2 3 3);
    first [reflexivity | discriminate | lia].
Defined.

(** ** Relationship propagation *)

(** C1 at the input of the specification: the mapping is
    [{1: "extA", 2: "extB"}], contact 1 lists contact 2 and contact 2 lists
    nobody.  Whatever the repository answers, the propagation pass sends one
    update, for extA; extB's relations are never written.  The same holds
    for the two passes run together. *)
Theorem propagation_writes_one_direction (repo : repository) :
  (run (update_bidirectional_relations repo [(person_a, 0); (person_b, 1)]
          {[ Py.KInt 1 := "extA"; Py.KInt 2 := "extB" ]}) []).2
  = [Patch "extA" {[ "Relations" := VList [VStr "extB"] ]}]
  /\ List.filter is_patch
       (run (process_network fresh_repo [(person_a, 0); (person_b, 1)]) []).2
     = [Patch "extA" {[ "Relations" := VList [VStr "extB"] ]}].
Proof.
  split.
  - destruct repo as [search_r post_r patch_r]. vm_compute.
    match goal with
    | |- context [patch_r ?log ?id ?fields] => destruct (patch_r log id fields)
    end; reflexivity.
  - vm_compute. reflexivity.
Qed.

(** ** Repository failures *)

Lemma run_bind_ok {A B : Type} (m : io A) (f : A -> io B) (log log' : list request) (a : A) :
  run m log = (Ok a, log') -> run (io_bind m f) log = run (f a) log'.
Proof. intros Hrun. unfold io_bind. simpl. by rewrite Hrun. Qed.

Lemma safe_lift {A : Type} (a : A) : safe (lift (Ok a)).
Proof. intros log. exists a, []. simpl. by rewrite app_nil_r. Qed.

Lemma safe_bind {A B : Type} (m : io A) (f : A -> io B) :
  safe m -> (forall a, safe (f a)) -> safe (io_bind m f).
Proof.
  intros Hm Hf log. destruct (Hm log) as (a & more & Hrun).
  destruct (Hf a (log ++ more)) as (b & more' & Hrun').
  exists b, (more ++ more'). rewrite (run_bind_ok _ _ _ _ _ Hrun), Hrun'.
  by rewrite app_assoc.
Qed.

Lemma safe_extends {A : Type} (m : io A) : safe m -> extends m.
Proof. intros Hm log. destruct (Hm log) as (a & more & Hrun). by exists (Ok a), more. Qed.

Lemma extends_lift {A : Type} (r : result A) : extends (lift r).
Proof. intros log. exists r, []. simpl. by rewrite app_nil_r. Qed.

Lemma extends_bind {A B : Type} (m : io A) (f : A -> io B) :
  extends m -> (forall a, extends (f a)) -> extends (io_bind m f).
Proof.
  intros Hm Hf log. destruct (Hm log) as ([a | e] & more & Hrun).
  - destruct (Hf a (log ++ more)) as (r & more' & Hrun').
    exists r, (more ++ more'). rewrite (run_bind_ok _ _ _ _ _ Hrun), Hrun'.
    by rewrite app_assoc.
  - exists (Raise e), more. unfold io_bind. simpl. by rewrite Hrun.
Qed.

Lemma extends_try {A : Type} (body handler : io A) :
  extends body -> extends handler -> extends (try_except body handler).
Proof.
  intros Hbody Hhandler log. destruct (Hbody log) as ([a | e] & more & Hrun).
  - exists (Ok a), more. unfold try_except. simpl. by rewrite Hrun.
  - destruct (Hhandler (log ++ more)) as (r & more' & Hrun').
    exists r, (more ++ more'). unfold try_except. simpl. rewrite Hrun, Hrun'.
    by rewrite app_assoc.
Qed.

Lemma safe_try {A : Type} (body handler : io A) :
  extends body -> safe handler -> safe (try_except body handler).
Proof.
  intros Hbody Hhandler log. destruct (Hbody log) as ([a | e] & more & Hrun).
  - exists a, more. unfold try_except. simpl. by rewrite Hrun.
  - destruct (Hhandler (log ++ more)) as (r & more' & Hrun').
    exists r, (more ++ more'). unfold try_except. simpl. rewrite Hrun, Hrun'.
    by rewrite app_assoc.
Qed.

Lemma extends_for_each_io {A S : Type} (f : S -> A -> io S) (l : list A) :
  (forall acc x, extends (f acc x)) -> forall acc, extends (for_each_io f l acc).
Proof.
  intros Hf. induction l as [| x l IH]; intros acc; [apply extends_lift |].
  simpl. apply extends_bind; [apply Hf | apply IH].
Qed.

Lemma extends_post (repo : repository) (table : string) (fields : dict) :
  extends (post repo table fields).
Proof. intros log. eexists _, [Post table fields]. reflexivity. Qed.

Lemma extends_patch (repo : repository) (record_id : string) (fields : dict) :
  extends (patch repo record_id fields).
Proof. intros log. eexists _, [Patch record_id fields]. reflexivity. Qed.

Section Failures.

Variable repo : repository.
Hypothesis repo_ok : repo_typed repo.

Lemma find_existing_contact_safe (contact : dict) :
  dedup_typed contact = true -> safe (find_existing_contact repo contact).
Proof.
  intros Htyped log.
  destruct (dedup_typed_inv _ Htyped) as (f & l & _ & _ & _ & Hf & Hl & _ & _ & Hage & _).
  destruct (decide (f = "")) as [-> | Hfne].
  { exists None, []. rewrite app_nil_r.
    apply (find_existing_contact_nameless repo contact "" l); auto. }
  destruct (decide (l = "")) as [-> | Hlne].
  { exists None, []. rewrite app_nil_r.
    apply (find_existing_contact_nameless repo contact f ""); auto. }
  rewrite (find_existing_contact_searches repo contact f l log Hf Hl Hfne Hlne).
  rewrite first_same_person_typed; [by eexists _, _ | exact Hage |].
  destruct (search_response repo log f l) as [matches |] eqn:Hsearch; simpl.
  - by apply (repo_ok log f l).
  - constructor.
Qed.

Lemma owner_foreclosures_among_safe (all_idi_contacts : list dict) (relations : list pyval) :
  Forall (fun c => dedup_typed c = true) all_idi_contacts ->
  safe (owner_foreclosures_among repo all_idi_contacts relations).
Proof.
  intros Hall. induction relations as [| relation_id rest IH]; [apply safe_lift |].
  simpl. destruct (contact_with_id all_idi_contacts relation_id) as [related |] eqn:Hfind;
    [| exact IH].
  destruct (bool_decide (related = ∅)); [exact IH |].
  assert (Htyped : dedup_typed related = true).
  { apply List.find_some in Hfind as [Hin _].
    rewrite Forall_forall in Hall. apply Hall. by apply list_elem_of_In. }
  destruct (dedup_typed_inv _ Htyped) as (_ & _ & _ & _ & label & _ & _ & _ & _ & _ & Hlabel).
  rewrite Hlabel. apply safe_bind; [apply safe_lift |]. intros related_relation.
  destruct (bool_decide _); [| exact IH].
  apply safe_bind; [by apply find_existing_contact_safe |].
  intros [owner |]; [| exact IH].
  destruct (Py.truthy _); [apply safe_lift | exact IH].
Qed.

Lemma int_list_iter (v : pyval) : int_list v = true -> exists l, v = VList l /\ Py.iter v = Ok l.
Proof. destruct v; try discriminate. by eexists. Qed.

Lemma find_owner_foreclosures_safe (contact : dict) (all_idi_contacts : list dict) :
  contact_typed contact = true ->
  Forall (fun c => dedup_typed c = true) all_idi_contacts ->
  safe (find_owner_foreclosures repo contact all_idi_contacts).
Proof.
  unfold contact_typed. rewrite !andb_true_iff.
  intros [[[[Htyped _] Hrel] _] _] Hall.
  destruct (dedup_typed_inv _ Htyped) as (_ & _ & _ & _ & label & _ & _ & _ & _ & _ & Hlabel).
  unfold find_owner_foreclosures. rewrite Hlabel.
  apply safe_bind; [apply safe_lift |]. intros relation.
  destruct (bool_decide _).
  - apply safe_bind; [by apply find_existing_contact_safe |].
    intros [existing |]; apply safe_lift.
  - destruct (int_list_iter _ Hrel) as (l & _ & ->).
    apply safe_bind; [apply safe_lift |]. intros relations.
    by apply owner_foreclosures_among_safe.
Qed.

Lemma format_phone_number_string (s : string) :
  exists phone, format_phone_number (VStr s) = Ok phone.
Proof.
  unfold format_phone_number. destruct (negb _); [by eexists |].
  destruct (_ =? 10); [by eexists |]. destruct (_ && _); by eexists.
Qed.

Lemma basic_contact_fields_returns (contact : dict) :
  contact_typed contact = true -> exists fields, basic_contact_fields contact = Ok fields.
Proof.
  unfold contact_typed. rewrite !andb_true_iff. intros [[[[_ Hphone] _] _] _].
  unfold basic_contact_fields.
  destruct (Py.get contact "Phone") as [| | | s | |] eqn:Hget; try discriminate.
  - simpl. by eexists.
  - destruct (Py.truthy (VStr s)); [| by eexists].
    destruct (format_phone_number_string s) as [phone ->]. simpl. by eexists.
Qed.

Lemma map_relations_ints (l : list pyval) (mapping : gmap key string) :
  forallb (fun x => match x with VInt _ => true | _ => false end) l = true ->
  exists ids, map_relations (VList l) mapping = Ok ids.
Proof.
  unfold map_relations. simpl. intros Hints.
  enough (Hany : forall acc, exists ids,
             for_each (fun relation_record_ids relation_id =>
                         do k <- Py.hashable relation_id ;;
                         match mapping !! k with
                         | Some record_id => Ok (relation_record_ids ++ [VStr record_id])
                         | None => Ok relation_record_ids
                         end) l acc = Ok ids) by apply Hany.
  induction l as [| x l IH]; intros acc; [by eexists |].
  simpl in Hints. apply andb_true_iff in Hints as [Hx Hl].
  destruct x; try discriminate. simpl.
  destruct (mapping !! Py.KInt z); by apply IH.
Qed.

Lemma add_relations_returns (contact : dict) (mapping : option (gmap key string))
    (fields : dict) :
  contact_typed contact = true ->
  exists fields', add_relations contact mapping fields = Ok fields'.
Proof.
  unfold contact_typed. rewrite !andb_true_iff. intros [[[[_ _] Hrel] _] _].
  unfold add_relations. destruct mapping as [mapping |]; [| by eexists].
  destruct (negb _); [| by eexists]. simpl.
  destruct (Py.truthy (Py.get contact "Relations")) eqn:Htruthy; [| by eexists].
  apply get_truthy_lookup in Htruthy.
  unfold Py.getitem, Py.get_default in *. rewrite Htruthy in *. simpl in *.
  destruct (Py.get contact "Relations"); try discriminate.
  destruct (map_relations_ints l mapping Hrel) as [ids ->]. simpl. by eexists.
Qed.

Lemma extends_create_property_record (property_data : pyval) (contact_record_id : string) :
  extends (create_property_record repo property_data contact_record_id).
Proof.
  unfold create_property_record. apply extends_bind; [apply extends_lift |].
  intros fields. apply extends_try; [| apply extends_lift].
  apply extends_bind; [apply extends_post |]. intros id. apply extends_lift.
Qed.

Lemma extends_process_properties (contact : dict) (contact_record_id : string) :
  extends (process_properties repo contact contact_record_id).
Proof.
  unfold process_properties. destruct (Py.truthy _); [| apply extends_lift].
  apply extends_bind; [apply extends_lift |]. intros _.
  apply extends_bind; [apply extends_lift |]. intros items.
  apply extends_bind.
  - apply extends_for_each_io. intros acc x.
    apply extends_bind; [apply extends_create_property_record |].
    intros property_id. apply extends_lift.
  - intros property_ids. destruct (bool_decide _); [apply extends_lift |].
    apply extends_try; [apply extends_patch | apply extends_lift].
Qed.

Lemma name_part_truthy (contact : dict) (k s : string) :
  name_part contact k = Ok s -> s <> "" ->
  Py.truthy (Py.get_default contact k (VStr "")) = true.
Proof.
  unfold name_part, Py.or_, Py.get, Py.get_default.
  destruct (contact !! k) as [v |]; simpl.
  - destruct (Py.truthy v); [done |]. simpl. by intros [= <-].
  - by intros [= <-].
Qed.

End Failures.

Lemma creates_bind {A B : Type} (m : io A) (f : A -> io B) :
  safe m -> (forall a, creates (f a)) -> creates (io_bind m f).
Proof.
  intros Hm Hf log. destruct (Hm log) as (a & more & Hrun).
  destruct (Hf a (log ++ more)) as (b & fields & between & after & Hrun').
  exists b, fields, (more ++ between), after.
  rewrite (run_bind_ok _ _ _ _ _ Hrun), Hrun'. by rewrite <- !app_assoc.
Qed.

(** The [try] block of [update_or_create_contact] when no existing record
    was found: the create is sent, and whatever follows is caught. *)
Lemma create_branch_creates (repo : repository) (contact contact_fields : dict) :
  creates
    (try_except
       (do contact_record_id <~ post repo contacts_table contact_fields ;;
        do _u <~ process_properties repo contact contact_record_id ;;
        lift (Ok (Some contact_record_id)))
       (lift (Ok None))).
Proof.
  intros log. unfold try_except, io_bind. simpl.
  destruct (post_response repo log contacts_table contact_fields) as [id |].
  - destruct (extends_process_properties repo contact id (log ++ [Post contacts_table contact_fields]))
      as ([u | e] & more & Hrun); rewrite Hrun; simpl.
    + exists (Some id), contact_fields, [], more. by rewrite <- app_assoc.
    + exists None, contact_fields, [], more. by rewrite <- app_assoc.
  - by exists None, contact_fields, [], [].
Qed.

Lemma contact_typed_dedup_typed (contact : dict) :
  contact_typed contact = true -> dedup_typed contact = true.
Proof. unfold contact_typed. rewrite !andb_true_iff. by intros [[[[H _] _] _] _]. Qed.

(** With the search rejected, the contact is created: the run on a repository
    whose search is down. *)
Lemma rejected_search_still_creates :
  exists fields,
    run (update_or_create_contact search_down john_41 None (Some [john_40; john_41])) []
    = (Ok (Some "recNEW"), [Search "john" "SMITH"; Post contacts_table fields])
    /\ fields !! "First Name" = Some (VStr "John").
Proof. eexists. split; vm_compute; reflexivity. Qed.



(** * Further properties of the code *)

(** ** Characters and strings *)

#[local] Arguments PyStr.lower_c : simpl never.
#[local] Arguments PyStr.upper_c : simpl never.
#[local] Arguments PyStr.iscased_c : simpl never.
#[local] Arguments PyStr.isspace_c : simpl never.
#[local] Arguments PyStr.isdigit_c : simpl never.
#[local] Arguments PyStr.islower_c : simpl never.
#[local] Arguments PyStr.isupper_c : simpl never.

Lemma upper_c_idem (c : ascii) : PyStr.upper_c (PyStr.upper_c c) = PyStr.upper_c c.
Proof. destruct c as [[] [] [] [] [] [] [] []]; reflexivity. Qed.

Lemma lower_c_idem (c : ascii) : PyStr.lower_c (PyStr.lower_c c) = PyStr.lower_c c.
Proof. destruct c as [[] [] [] [] [] [] [] []]; reflexivity. Qed.

Lemma lower_upper_c (c : ascii) : PyStr.lower_c (PyStr.upper_c c) = PyStr.lower_c c.
Proof. destruct c as [[] [] [] [] [] [] [] []]; reflexivity. Qed.

Lemma upper_lower_c (c : ascii) : PyStr.upper_c (PyStr.lower_c c) = PyStr.upper_c c.
Proof. destruct c as [[] [] [] [] [] [] [] []]; reflexivity. Qed.

Lemma iscased_lower_c (c : ascii) : PyStr.iscased_c (PyStr.lower_c c) = PyStr.iscased_c c.
Proof. destruct c as [[] [] [] [] [] [] [] []]; reflexivity. Qed.

Lemma iscased_upper_c (c : ascii) : PyStr.iscased_c (PyStr.upper_c c) = PyStr.iscased_c c.
Proof. destruct c as [[] [] [] [] [] [] [] []]; reflexivity. Qed.

Lemma isspace_lower_c (c : ascii) : PyStr.isspace_c (PyStr.lower_c c) = PyStr.isspace_c c.
Proof. destruct c as [[] [] [] [] [] [] [] []]; reflexivity. Qed.

Lemma isspace_upper_c (c : ascii) : PyStr.isspace_c (PyStr.upper_c c) = PyStr.isspace_c c.
Proof. destruct c as [[] [] [] [] [] [] [] []]; reflexivity. Qed.

Lemma islower_upper_c (c : ascii) : PyStr.islower_c (PyStr.upper_c c) = false.
Proof. destruct c as [[] [] [] [] [] [] [] []]; reflexivity. Qed.

Lemma isdigit_not_space (c : ascii) : PyStr.isdigit_c c = true -> PyStr.isspace_c c = false.
Proof. destruct c as [[] [] [] [] [] [] [] []]; (reflexivity || discriminate). Qed.

Lemma lower_idem (s : string) : PyStr.lower (PyStr.lower s) = PyStr.lower s.
Proof.
  unfold PyStr.lower. induction s as [| c s IH]; [done |].
  simpl. by rewrite lower_c_idem, IH.
Qed.

Lemma lower_upper (s : string) : PyStr.lower (PyStr.upper s) = PyStr.lower s.
Proof.
  unfold PyStr.lower, PyStr.upper. induction s as [| c s IH]; [done |].
  simpl. by rewrite lower_upper_c, IH.
Qed.

Lemma lower_app (s t : string) : PyStr.lower (s +:+ t) = PyStr.lower s +:+ PyStr.lower t.
Proof. unfold PyStr.lower. induction s as [| c s IH]; [done |]. simpl. by rewrite IH. Qed.

(** [title] looks at its argument up to case only. *)
Lemma title_from_lower (s : string) :
  forall b, PyStr.title_from b (PyStr.lower s) = PyStr.title_from b s.
Proof.
  unfold PyStr.lower. induction s as [| c s IH]; intros b; [done |].
  simpl. rewrite lower_c_idem, upper_lower_c, iscased_lower_c. by rewrite IH.
Qed.

Lemma lower_title_from (s : string) :
  forall b, PyStr.lower (PyStr.title_from b s) = PyStr.lower s.
Proof.
  unfold PyStr.lower. induction s as [| c s IH]; intros b; [done |].
  simpl. rewrite IH. by destruct b; rewrite ?lower_c_idem, ?lower_upper_c.
Qed.

Lemma title_case_blind (s t : string) :
  PyStr.lower s = PyStr.lower t -> PyStr.title s = PyStr.title t.
Proof.
  intros Heq. unfold PyStr.title.
  by rewrite <- (title_from_lower s), <- (title_from_lower t), Heq.
Qed.

Lemma title_idem (s : string) : PyStr.title (PyStr.title s) = PyStr.title s.
Proof. apply title_case_blind, lower_title_from. Qed.

Lemma length_smap (f : ascii -> ascii) (s : string) :
  String.length (PyStr.smap f s) = String.length s.
Proof. induction s as [| c s IH]; [done |]. simpl. by rewrite IH. Qed.

Lemma length_title_from (s : string) :
  forall b, String.length (PyStr.title_from b s) = String.length s.
Proof. induction s as [| c s IH]; intros b; [done |]. simpl. by rewrite IH. Qed.

Lemma startswith_split (s p : string) :
  PyStr.startswith s p = true -> s = p +:+ PyStr.drop (String.length p) s.
Proof.
  unfold PyStr.startswith. revert s.
  induction p as [| c p IH]; intros s Hprefix; [done |].
  destruct s as [| c' s]; [discriminate |]. simpl in *.
  destruct (ascii_dec c c') as [<- | Hne]; [| discriminate].
  change (String c s = String c (p +:+ PyStr.drop (String.length p) s)).
  f_equal. by apply IH.
Qed.

Lemma lower_empty (s : string) : PyStr.lower s = "" -> s = "".
Proof. by destruct s. Qed.

Lemma lower_apply_prefix (name prefix : string) :
  PyStr.lower (apply_prefix name prefix) = PyStr.lower name.
Proof.
  unfold apply_prefix.
  destruct (PyStr.startswith name (PyStr.title prefix)) eqn:Hstarts; [| done].
  apply startswith_split in Hstarts.
  unfold PyStr.title in Hstarts. rewrite length_title_from in Hstarts.
  destruct (PyStr.drop (String.length prefix) name) as [| c rest]; [done |].
  rewrite Hstarts. rewrite !lower_app, lower_title_from.
  f_equal. unfold PyStr.lower. simpl. by rewrite lower_upper_c.
Qed.

Lemma lower_fold_apply_prefix (prefixes : list string) :
  forall name, PyStr.lower (fold_left apply_prefix prefixes name) = PyStr.lower name.
Proof.
  induction prefixes as [| p prefixes IH]; intros name; [done |].
  simpl. by rewrite IH, lower_apply_prefix.
Qed.

Lemma lower_title_case_name (name : string) :
  PyStr.lower (title_case_name name) = PyStr.lower name.
Proof.
  unfold title_case_name. destruct (bool_decide (name = "")); [done |].
  rewrite lower_fold_apply_prefix. apply lower_title_from.
Qed.

Lemma title_case_name_case_blind (x y : string) :
  PyStr.lower x = PyStr.lower y -> title_case_name x = title_case_name y.
Proof.
  intros Heq. unfold title_case_name.
  destruct (decide (x = "")) as [-> | Hx].
  - symmetry in Heq. apply lower_empty in Heq as ->. reflexivity.
  - destruct (decide (y = "")) as [-> | Hy].
    + by apply lower_empty in Heq.
    + rewrite !bool_decide_false by done. by rewrite (title_case_blind x y Heq).
Qed.

(** X2.  On ASCII names, [title_case_name] changes nothing but the case of
    letters, looks at its argument up to case only, and leaves its own
    results alone: formatting a formatted name again gives the same name. *)
Theorem title_case_name_is_stable (name other : string) :
  PyStr.is_ascii name = true -> PyStr.is_ascii other = true ->
  PyStr.lower (title_case_name name) = PyStr.lower name
  /\ (PyStr.lower other = PyStr.lower name -> title_case_name other = title_case_name name)
  /\ title_case_name (title_case_name name) = title_case_name name
  /\ title_case_name (PyStr.upper name) = title_case_name name.
Proof.
  intros _ _.
  split; [apply lower_title_case_name |].
  split; [apply title_case_name_case_blind |].
  split; apply title_case_name_case_blind;
    [apply lower_title_case_name | apply lower_upper].
Qed.

Lemma title_case_name_is_stable_witness :
  title_case_name "MCDOWELL" = title_case_name "McDowell".
Proof.
  exact (proj1 (proj2 (title_case_name_is_stable "McDowell" "MCDOWELL" eq_refl eq_refl))
           eq_refl).
Defined.

(** ** Phone numbers *)

Lemma length_app (s t : string) :
  String.length (s +:+ t) = (String.length s + String.length t)%nat.
Proof. induction s as [| c s IH]; [done |]. simpl. by rewrite IH. Qed.

Lemma only_digits_app (s t : string) :
  PyStr.only_digits (s +:+ t) = PyStr.only_digits s +:+ PyStr.only_digits t.
Proof.
  induction s as [| c s IH]; [done |]. simpl.
  destruct (PyStr.isdigit_c c); simpl; by rewrite IH.
Qed.

Lemma all_digits_only_digits (s : string) : all_digits (PyStr.only_digits s) = true.
Proof.
  induction s as [| c s IH]; [done |]. simpl.
  destruct (PyStr.isdigit_c c) eqn:Hc; [| done]. simpl. by rewrite Hc.
Qed.

Lemma only_digits_all_digits (s : string) : all_digits s = true -> PyStr.only_digits s = s.
Proof.
  induction s as [| c s IH]; [done |]. simpl.
  intros [Hc Hs]%andb_true_iff. rewrite Hc. by rewrite IH.
Qed.

Lemma all_digits_take (n : nat) :
  forall s, all_digits s = true -> all_digits (PyStr.take n s) = true.
Proof.
  induction n as [| n IH]; intros [| c s]; simpl; try done.
  intros [Hc Hs]%andb_true_iff. rewrite Hc. by apply IH.
Qed.

Lemma all_digits_drop (n : nat) :
  forall s, all_digits s = true -> all_digits (PyStr.drop n s) = true.
Proof.
  induction n as [| n IH]; intros [| c s]; simpl; try done.
  intros [Hc Hs]%andb_true_iff. by apply IH.
Qed.

Lemma take_drop (n : nat) : forall s, PyStr.take n s +:+ PyStr.drop n s = s.
Proof.
  induction n as [| n IH]; intros [| c s]; try done.
  change (String c (PyStr.take n s +:+ PyStr.drop n s) = String c s). by rewrite IH.
Qed.

Lemma drop_drop (n m : nat) : forall s, PyStr.drop n (PyStr.drop m s) = PyStr.drop (m + n) s.
Proof.
  induction m as [| m IH]; intros s; [done |].
  destruct s as [| c s]; simpl; [by destruct n | apply IH].
Qed.

Lemma length_take (n : nat) :
  forall s, (n <= String.length s)%nat -> String.length (PyStr.take n s) = n.
Proof.
  induction n as [| n IH]; intros [| c s]; simpl; try done; [lia |].
  intros Hle. rewrite IH; lia.
Qed.

Lemma length_drop (n : nat) :
  forall s, String.length (PyStr.drop n s) = (String.length s - n)%nat.
Proof. induction n as [| n IH]; intros [| c s]; simpl; auto. Qed.

(** The text [(AAA) BBB-CCCC] made of ten digits: its digits are the ten
    digits, and it is 14 characters long. *)
Lemma punctuated_digits (d : string) :
  all_digits d = true -> String.length d = 10%nat ->
  let t := "(" +:+ PyStr.take 3 d +:+ ") " +:+ PyStr.take 3 (PyStr.drop 3 d)
           +:+ "-" +:+ PyStr.drop 6 d in
  PyStr.only_digits t = d /\ String.length t = 14%nat.
Proof.
  intros Hd Hlen t. subst t. split.
  - rewrite !only_digits_app.
    rewrite (only_digits_all_digits (PyStr.take 3 d)) by by apply all_digits_take.
    rewrite (only_digits_all_digits (PyStr.take 3 (PyStr.drop 3 d)))
      by by apply all_digits_take, all_digits_drop.
    rewrite (only_digits_all_digits (PyStr.drop 6 d)) by by apply all_digits_drop.
    change (PyStr.only_digits "(") with "". change (PyStr.only_digits ") ") with "".
    change (PyStr.only_digits "-") with "".
    change ("" +:+ PyStr.take 3 d +:+ "" +:+ PyStr.take 3 (PyStr.drop 3 d) +:+ ""
            +:+ PyStr.drop 6 d)
      with (PyStr.take 3 d +:+ PyStr.take 3 (PyStr.drop 3 d) +:+ PyStr.drop 6 d).
    replace (PyStr.drop 6 d) with (PyStr.drop 3 (PyStr.drop 3 d)) by apply drop_drop.
    by rewrite (take_drop 3 (PyStr.drop 3 d)), (take_drop 3 d).
  - rewrite !length_app, !length_take, !length_drop by (rewrite ?length_drop; lia).
    simpl. lia.
Qed.

Lemma format_ten_digits (s d : string) :
  s <> "" -> PyStr.only_digits s = d -> String.length d = 10%nat ->
  format_phone_number (VStr s)
  = Ok (VStr ("(" +:+ PyStr.take 3 d +:+ ") " +:+ PyStr.take 3 (PyStr.drop 3 d)
              +:+ "-" +:+ PyStr.drop 6 d)).
Proof.
  intros Hs Hd Hlen. unfold format_phone_number. simpl.
  rewrite bool_decide_false by done. simpl. rewrite Hd.
  unfold PyStr.len. rewrite Hlen. reflexivity.
Qed.

Lemma Ok_inj {A : Type} (a b : A) : Ok a = Ok b -> a = b.
Proof. by intros [=]. Qed.

Lemma format_eleven_digits (s d : string) :
  s <> "" -> PyStr.only_digits s = d -> String.length d = 11%nat ->
  PyStr.take 1 d = "1" ->
  format_phone_number (VStr s)
  = Ok (VStr ("(" +:+ PyStr.take 3 (PyStr.drop 1 d) +:+ ") "
              +:+ PyStr.take 3 (PyStr.drop 4 d) +:+ "-" +:+ PyStr.drop 7 d)).
Proof.
  intros Hs Hd Hlen Hone. unfold format_phone_number.
  replace (negb (Py.truthy (VStr s))) with false
    by (simpl; by rewrite bool_decide_false).
  rewrite Hd. unfold PyStr.len. rewrite Hlen, Hone. reflexivity.
Qed.

Lemma format_other_digits (s : string) :
  s <> "" -> String.length (PyStr.only_digits s) <> 10%nat ->
  ~ (String.length (PyStr.only_digits s) = 11%nat
     /\ PyStr.take 1 (PyStr.only_digits s) = "1") ->
  format_phone_number (VStr s) = Ok (VStr s).
Proof.
  intros Hs Hnot10 Hnot11. unfold format_phone_number.
  replace (negb (Py.truthy (VStr s))) with false
    by (simpl; by rewrite bool_decide_false).
  replace (PyStr.len (PyStr.only_digits s) =? 10) with false
    by (symmetry; apply Z.eqb_neq; unfold PyStr.len; lia).
  destruct (_ && _) eqn:Heleven; [| reflexivity].
  apply andb_true_iff in Heleven as [Hlen11 Hone].
  apply Z.eqb_eq in Hlen11. apply bool_decide_eq_true in Hone.
  exfalso. apply Hnot11. split; [unfold PyStr.len in Hlen11; lia | exact Hone].
Qed.

(** X3.  On an ASCII phone, [format_phone_number] is stable: formatting what
    it returned gives the same value again.  On a string it returns a string
    that is either the input itself or 14 characters long, and it keeps the
    digits, but for the leading 1 of an eleven-digit number. *)
Theorem format_phone_number_is_stable (phone formatted : pyval) :
  ascii_value phone = true ->
  format_phone_number phone = Ok formatted ->
  format_phone_number formatted = Ok formatted
  /\ forall s, phone = VStr s ->
       exists t, formatted = VStr t
         /\ (t = s
             \/ String.length t = 14%nat
                /\ (PyStr.only_digits s = PyStr.only_digits t
                    \/ PyStr.only_digits s = String "1" (PyStr.only_digits t))).
Proof.
  intros _ Hformat.
  destruct phone as [| b | z | s | l | d];
    try (unfold format_phone_number in Hformat;
         destruct (negb (Py.truthy _)) eqn:Hfalsy; [| discriminate];
         injection Hformat as <-; unfold format_phone_number; rewrite Hfalsy;
         split; [reflexivity | intros s' [=]]).
  destruct (decide (s = "")) as [-> | Hs].
  { injection Hformat as <-. split; [reflexivity |].
    intros s' [= <-]. exists "". split; [done | by left]. }
  pose proof (all_digits_only_digits s) as Hdigits.
  destruct (decide (String.length (PyStr.only_digits s) = 10%nat)) as [Hten | Hnot10].
  { rewrite (format_ten_digits s _ Hs eq_refl Hten) in Hformat. injection Hformat as <-.
    destruct (punctuated_digits _ Hdigits Hten) as [Hkept Hlen].
    split.
    - apply format_ten_digits; [by intros [=] | exact Hkept | exact Hten].
    - intros s' [= <-]. eexists. split; [reflexivity |]. right. split; [exact Hlen |].
      left. symmetry. exact Hkept. }
  destruct (decide (String.length (PyStr.only_digits s) = 11%nat
                    /\ PyStr.take 1 (PyStr.only_digits s) = "1")) as [[Hlen11 Hone] | Hnot11].
  - rewrite (format_eleven_digits s _ Hs eq_refl Hlen11 Hone) in Hformat.
    apply Ok_inj in Hformat. subst formatted.
    set (d := PyStr.only_digits s) in *.
    set (d' := PyStr.drop 1 d).
    assert (Hd' : all_digits d' = true) by by apply all_digits_drop.
    assert (Hlen' : String.length d' = 10%nat) by (unfold d'; rewrite length_drop; lia).
    assert (Hd : d = String "1" d').
    { rewrite <- (take_drop 1 d). by rewrite Hone. }
    replace (PyStr.drop 4 d) with (PyStr.drop 3 d') by apply drop_drop.
    replace (PyStr.drop 7 d) with (PyStr.drop 6 d') by apply drop_drop.
    destruct (punctuated_digits _ Hd' Hlen') as [Hkept Hlen].
    split.
    + apply (format_ten_digits _ d'); [by intros [=] | exact Hkept | exact Hlen'].
    + intros s' [= <-]. eexists. split; [reflexivity |]. right. split; [exact Hlen |].
      right. transitivity (String "1" d'); [exact Hd |].
      f_equal. symmetry. exact Hkept.
  - rewrite (format_other_digits s Hs Hnot10 Hnot11) in Hformat. injection Hformat as <-.
    split; [by apply format_other_digits |].
    intros s' [= <-]. exists s. split; [done | by left].
Qed.

Lemma format_phone_number_is_stable_witness :
  format_phone_number (VStr "(555) 123-4567") = Ok (VStr "(555) 123-4567").
Proof.
  apply (format_phone_number_is_stable (VStr "1-555-123-4567")); reflexivity.
Defined.
